(** * Anime/Character API: a shallow embedding of [main.py] and its models

    The service keeps two module-level dictionaries, [animes] and
    [characters], and exposes create / list / get / partial-update handlers
    over them.  The handlers lean on three pieces of library behaviour that
    are written out here because the properties below depend on them:

    - a Python [dict] keeps its keys in insertion order, and assigning to an
      existing key replaces the value in place;
    - [model_dump()] turns a pydantic model into a keyword dictionary, and
      [model_dump(exclude_unset=True)] keeps only the fields the request set;
    - calling a model class on keyword arguments validates every field
      against its annotation, runs the [default_factory] of each missing
      field, and raises [ValidationError] when some field is rejected. *)

From Stdlib Require Import List String Bool ZArith NArith.
Import ListNotations.
Local Open Scope string_scope.
Local Open Scope list_scope.

Set Implicit Arguments.
Set Warnings "-register-all".

(** ** Python dictionaries *)

(** Keys of a dictionary are compared with [==]. *)
Class Hashable (K : Type) := {
  key_eqb : K -> K -> bool;
  key_eqb_spec : forall x y, reflect (x = y) (key_eqb x y)
}.

#[global] Instance Hashable_string : Hashable string :=
  {| key_eqb := String.eqb; key_eqb_spec := String.eqb_spec |}.

#[global] Instance Hashable_N : Hashable N :=
  {| key_eqb := N.eqb; key_eqb_spec := N.eqb_spec |}.

(** Items in insertion order; [dict_set] is the only way items are added,
    so no key occurs twice. *)
Definition dict (K V : Type) := list (K * V).

Section Dict.
Context {K V : Type} `{Hashable K}.

(** [d.get(k)] *)
Fixpoint dict_get (k : K) (d : dict K V) : option V :=
  match d with
  | [] => None
  | (k', v) :: rest => if key_eqb k k' then Some v else dict_get k rest
  end.

(** [k in d] *)
Definition dict_contains (k : K) (d : dict K V) : bool :=
  match dict_get k d with Some _ => true | None => false end.

(** [d[k] = v]: an existing key keeps its position, a new key goes last. *)
Fixpoint dict_set (k : K) (v : V) (d : dict K V) : dict K V :=
  match d with
  | [] => [(k, v)]
  | (k', v') :: rest =>
      if key_eqb k k' then (k', v) :: rest else (k', v') :: dict_set k v rest
  end.

(** [d.update(other)] *)
Definition dict_update (d other : dict K V) : dict K V :=
  fold_left (fun acc kv => dict_set (fst kv) (snd kv) acc) other d.

(** [list(d.keys())] and [list(d.values())] *)
Definition dict_keys (d : dict K V) : list K := map fst d.
Definition dict_values (d : dict K V) : list V := map snd d.
End Dict.

(** ** Values that travel through keyword dictionaries *)

(** [uuid.UUID] is a 128-bit number, a naive [datetime] a count of
    microseconds. *)
Definition UUID := N.
Definition datetime := Z.

Inductive pyval : Type :=
| PNone
| PStr (s : string)
| PUuid (u : UUID)
| PDatetime (t : datetime)
| PList (l : list pyval)
| PDict (d : list (string * pyval)).

Definition kwargs := dict string pyval.

(** A field of a request model together with pydantic's record of whether
    the request supplied it ([model_fields_set]). *)
Inductive field (A : Type) : Type :=
| Unset
| Given (v : A).
Arguments Unset {A}.
Arguments Given {A} v.

(** The piece of [model_dump(exclude_unset=True)] contributed by one field. *)
Definition present {A} (key : string) (dump : A -> pyval) (f : field A) : kwargs :=
  match f with
  | Unset => []
  | Given v => [(key, dump v)]
  end.

Definition dump_str (s : string) : pyval := PStr s.
Definition dump_optional_str (o : option string) : pyval :=
  match o with
  | None => PNone
  | Some s => PStr s
  end.

(** ** Exceptions and the process state *)

Inductive exn : Type :=
| HTTPException (status_code : Z) (detail : string)
| ValidationError
| AttributeError (attribute : string)
| KeyError.

Inductive result (A : Type) : Type :=
| Ok (a : A)
| Raise (e : exn).
Arguments Ok {A} a.
Arguments Raise {A} e.

(** ** Validation *)

(** [uuid4()] and [datetime.utcnow()] read the outside world.  The oracle
    holds the values their future calls return, next call first. *)
Record Oracle : Type := {
  entropy : nat -> UUID;
  clock : nat -> datetime
}.

(** A validator may consult the oracle (for a [default_factory]) and either
    yields a value or rejects its input.  Pydantic visits every field even
    after one has been rejected, so validators compose applicatively. *)
Definition V (A : Type) : Type := Oracle -> option A * Oracle.

Definition vpure {A} (a : A) : V A := fun o => (Some a, o).
Definition vfail {A} : V A := fun o => (None, o).
Definition vap {A B} (f : V (A -> B)) (x : V A) : V B :=
  fun o =>
    let (g, o1) := f o in
    let (a, o2) := x o1 in
    (match g, a with
     | Some g', Some a' => Some (g' a')
     | _, _ => None
     end, o2).
Infix "<*>" := vap (at level 61, left associativity).

(** The oracle once the next identifier, or the next reading, is used up. *)
Definition skip_uuid (o : Oracle) : Oracle :=
  {| entropy := fun n => entropy o (S n); clock := clock o |}.
Definition skip_time (o : Oracle) : Oracle :=
  {| entropy := entropy o; clock := fun n => clock o (S n) |}.

Definition uuid4 : V UUID := fun o => (Some (entropy o 0), skip_uuid o).
Definition utcnow : V datetime := fun o => (Some (clock o 0), skip_time o).

(** A field without a default must be among the keyword arguments; a field
    with one falls back to it (unvalidated) when the key is missing. *)
Definition required {A} (key : string) (ty : pyval -> V A) (kw : kwargs) : V A :=
  match dict_get key kw with
  | Some v => ty v
  | None => vfail
  end.
Definition defaulted {A} (key : string) (ty : pyval -> V A) (default : V A)
    (kw : kwargs) : V A :=
  match dict_get key kw with
  | Some v => ty v
  | None => default
  end.

(** The annotations used by the models.  Only the shapes that [model_dump]
    produces are accepted; the handlers pass nothing else. *)
Definition str_ (v : pyval) : V string :=
  match v with PStr s => vpure s | _ => vfail end.
Definition optional_str (v : pyval) : V (option string) :=
  match v with PNone => vpure None | PStr s => vpure (Some s) | _ => vfail end.
(** [str = Field(None)]: the default is taken as it is when the key is
    missing, but a value that is supplied, [None] included, must be a
    string. *)
Definition str_or_default (v : pyval) : V (option string) :=
  match v with PStr s => vpure (Some s) | _ => vfail end.
Definition uuid_ (v : pyval) : V UUID :=
  match v with PUuid u => vpure u | _ => vfail end.
Definition datetime_ (v : pyval) : V datetime :=
  match v with PDatetime t => vpure t | _ => vfail end.

Fixpoint vtraverse {A B} (f : A -> V B) (l : list A) : V (list B) :=
  match l with
  | [] => vpure []
  | x :: rest => vpure cons <*> f x <*> vtraverse f rest
  end.

(** ** The model classes of [models/characters.py] *)

Module CharacterBase.
(** [gender] is annotated [str] but defaults to [None]; pydantic does not
    validate defaults, so an instance built without it carries [None]. *)
Record t : Type := mk {
  id : UUID;
  name : string;
  role : string;
  alias : option string;
  gender : option string;
  ability : string
}.

Definition model_dump (c : t) : kwargs :=
  [ ("id", PUuid (id c));
    ("name", PStr (name c));
    ("role", PStr (role c));
    ("alias", dump_optional_str (alias c));
    ("gender", dump_optional_str (gender c));
    ("ability", PStr (ability c)) ].

(** A [CharacterBase] parsed from a request body, with its
    [model_fields_set]: only the three fields that have defaults can be
    unset.  The identifier minted for an unset [id] while parsing is
    dropped by [exclude_unset], so it is not recorded. *)
Record body : Type := mk_body {
  b_id : field UUID;
  b_name : string;
  b_role : string;
  b_alias : field (option string);
  b_gender : field string;
  b_ability : string
}.

Definition model_dump_exclude_unset (c : body) : kwargs :=
  present "id" PUuid (b_id c)
  ++ [("name", PStr (b_name c)); ("role", PStr (b_role c))]
  ++ present "alias" dump_optional_str (b_alias c)
  ++ present "gender" dump_str (b_gender c)
  ++ [("ability", PStr (b_ability c))].

(** The constructor call [CharacterBase] on keyword arguments [kw]. *)
Definition init (kw : kwargs) : V t :=
  vpure mk
    <*> defaulted "id" uuid_ uuid4 kw
    <*> required "name" str_ kw
    <*> required "role" str_ kw
    <*> defaulted "alias" optional_str (vpure None) kw
    <*> defaulted "gender" str_or_default (vpure None) kw
    <*> required "ability" str_ kw.
End CharacterBase.

(** [class CharacterCreate(CharacterBase)] adds no field. *)
Module CharacterCreate.
Definition t := CharacterBase.t.
Definition model_dump : t -> kwargs := CharacterBase.model_dump.
End CharacterCreate.

Module CharacterUpdate.
(** Four fields are [Optional[str]], so a body may carry an explicit
    [null] for them; [gender] is [str], so when set it is a string. *)
Record t : Type := mk {
  name : field (option string);
  role : field (option string);
  alias : field (option string);
  gender : field string;
  ability : field (option string)
}.

Definition model_dump_exclude_unset (u : t) : kwargs :=
  present "name" dump_optional_str (name u)
  ++ present "role" dump_optional_str (role u)
  ++ present "alias" dump_optional_str (alias u)
  ++ present "gender" dump_str (gender u)
  ++ present "ability" dump_optional_str (ability u).
End CharacterUpdate.

Module CharacterRead.
Record t : Type := mk {
  id : UUID;
  name : string;
  role : string;
  alias : option string;
  gender : option string;
  ability : string;
  created_at : datetime;
  updated_at : datetime
}.

Definition model_dump (c : t) : kwargs :=
  [ ("id", PUuid (id c));
    ("name", PStr (name c));
    ("role", PStr (role c));
    ("alias", dump_optional_str (alias c));
    ("gender", dump_optional_str (gender c));
    ("ability", PStr (ability c));
    ("created_at", PDatetime (created_at c));
    ("updated_at", PDatetime (updated_at c)) ].

(** The constructor call on keyword arguments [kw]: the fields of
    [CharacterBase] first, then the two timestamps, each with its own
    [default_factory]. *)
Definition init (kw : kwargs) : V t :=
  vpure mk
    <*> defaulted "id" uuid_ uuid4 kw
    <*> required "name" str_ kw
    <*> required "role" str_ kw
    <*> defaulted "alias" optional_str (vpure None) kw
    <*> defaulted "gender" str_or_default (vpure None) kw
    <*> required "ability" str_ kw
    <*> defaulted "created_at" datetime_ utcnow kw
    <*> defaulted "updated_at" datetime_ utcnow kw.
End CharacterRead.

(** ** The model classes of [models/anime.py] *)

(** [List[CharacterBase]], given the list of dictionaries a dump produces. *)
Definition character_list (v : pyval) : V (list CharacterBase.t) :=
  match v with
  | PList items =>
      vtraverse (fun item => match item with
                             | PDict kw => CharacterBase.init kw
                             | _ => vfail
                             end) items
  | _ => vfail
  end.

Definition dump_characters (l : list CharacterBase.t) : pyval :=
  PList (map (fun c => PDict (CharacterBase.model_dump c)) l).

(** [class AnimeCreate(AnimeBase)] adds no field; there is no [id]. *)
Module AnimeCreate.
Record t : Type := mk {
  title : string;
  genre : string;
  seasons : string;
  rating : option string;
  status : string;
  streaming : string;
  characters : list CharacterBase.t
}.

Definition model_dump (a : t) : kwargs :=
  [ ("title", PStr (title a));
    ("genre", PStr (genre a));
    ("seasons", PStr (seasons a));
    ("rating", dump_optional_str (rating a));
    ("status", PStr (status a));
    ("streaming", PStr (streaming a));
    ("characters", dump_characters (characters a)) ].
End AnimeCreate.

Module AnimeUpdate.
Record t : Type := mk {
  title : field (option string);
  genre : field (option string);
  seasons : field (option string);
  rating : field (option string);
  status : field (option string);
  streaming : field (option string);
  characters : field (option (list CharacterBase.body))
}.

(** [exclude_unset] also applies to the embedded models. *)
Definition dump_optional_characters (o : option (list CharacterBase.body)) : pyval :=
  match o with
  | None => PNone
  | Some l => PList (map (fun c => PDict (CharacterBase.model_dump_exclude_unset c)) l)
  end.

Definition model_dump_exclude_unset (u : t) : kwargs :=
  present "title" dump_optional_str (title u)
  ++ present "genre" dump_optional_str (genre u)
  ++ present "seasons" dump_optional_str (seasons u)
  ++ present "rating" dump_optional_str (rating u)
  ++ present "status" dump_optional_str (status u)
  ++ present "streaming" dump_optional_str (streaming u)
  ++ present "characters" dump_optional_characters (characters u).
End AnimeUpdate.

Module AnimeRead.
Record t : Type := mk {
  title : string;
  genre : string;
  seasons : string;
  rating : option string;
  status : string;
  streaming : string;
  characters : list CharacterBase.t;
  id : UUID;
  created_at : datetime;
  updated_at : datetime
}.

Definition model_dump (a : t) : kwargs :=
  [ ("title", PStr (title a));
    ("genre", PStr (genre a));
    ("seasons", PStr (seasons a));
    ("rating", dump_optional_str (rating a));
    ("status", PStr (status a));
    ("streaming", PStr (streaming a));
    ("characters", dump_characters (characters a));
    ("id", PUuid (id a));
    ("created_at", PDatetime (created_at a));
    ("updated_at", PDatetime (updated_at a)) ].

(** The constructor call on keyword arguments [kw]: the fields of [AnimeBase] first, then [id] and the
    two timestamps. *)
Definition init (kw : kwargs) : V t :=
  vpure mk
    <*> required "title" str_ kw
    <*> required "genre" str_ kw
    <*> required "seasons" str_ kw
    <*> defaulted "rating" optional_str (vpure None) kw
    <*> required "status" str_ kw
    <*> required "streaming" str_ kw
    <*> defaulted "characters" character_list (vpure []) kw
    <*> defaulted "id" uuid_ uuid4 kw
    <*> defaulted "created_at" datetime_ utcnow kw
    <*> defaulted "updated_at" datetime_ utcnow kw.
End AnimeRead.

(** ** The process state and the handler monad *)

(** The two module-level dictionaries of [main.py], and the outside world. *)
Record World : Type := {
  animes : dict UUID AnimeRead.t;
  characters : dict UUID CharacterRead.t;
  oracle : Oracle
}.

(** A handler runs against the process state and returns or raises. *)
Definition M (A : Type) : Type := World -> result A * World.

Definition ret {A} (a : A) : M A := fun w => (Ok a, w).
Definition raise {A} (e : exn) : M A := fun w => (Raise e, w).
Definition bind {A B} (m : M A) (k : A -> M B) : M B :=
  fun w =>
    match m w with
    | (Ok a, w') => k a w'
    | (Raise e, w') => (Raise e, w')
    end.

Notation "x <- m ;; k" := (bind m (fun x => k))
  (at level 100, m at next level, right associativity).
Notation "m ;; k" := (bind m (fun _ => k))
  (at level 100, right associativity).

(** Calling a model class: the validator runs against the oracle, and a
    rejected field surfaces as [ValidationError]. *)
Definition with_oracle (w : World) (o : Oracle) : World :=
  {| animes := animes w; characters := characters w; oracle := o |}.
Definition with_characters (w : World) (d : dict UUID CharacterRead.t) : World :=
  {| animes := animes w; characters := d; oracle := oracle w |}.
Definition with_animes (w : World) (d : dict UUID AnimeRead.t) : World :=
  {| animes := d; characters := characters w; oracle := oracle w |}.

Definition construct {A} (v : V A) : M A :=
  fun w =>
    let (r, o) := v (oracle w) in
    (match r with Some a => Ok a | None => Raise ValidationError end,
     with_oracle w o).

Definition get_characters : M (dict UUID CharacterRead.t) :=
  fun w => (Ok (characters w), w).
Definition get_animes : M (dict UUID AnimeRead.t) :=
  fun w => (Ok (animes w), w).
Definition setitem_characters (k : UUID) (v : CharacterRead.t) : M unit :=
  fun w => (Ok tt, with_characters w (dict_set k v (characters w))).
Definition setitem_animes (k : UUID) (v : AnimeRead.t) : M unit :=
  fun w => (Ok tt, with_animes w (dict_set k v (animes w))).

(** [d[k]] *)
Definition getitem {A} (k : UUID) (d : dict UUID A) : M A :=
  match dict_get k d with
  | Some v => ret v
  | None => raise KeyError
  end.

(** ** Character endpoints *)

Definition create_character (character : CharacterCreate.t) : M CharacterRead.t :=
  store <- get_characters ;;
  if dict_contains (CharacterBase.id character) store then
    raise (HTTPException 400 "Character with this ID already exists")
  else
    fresh <- construct (CharacterRead.init (CharacterCreate.model_dump character)) ;;
    setitem_characters (CharacterBase.id character) fresh ;;
    store' <- get_characters ;;
    getitem (CharacterBase.id character) store'.

(** [a.field == query] against an attribute that may hold [None]. *)
Definition optional_eqb (o : option string) (s : string) : bool :=
  match o with
  | Some x => String.eqb x s
  | None => false
  end.

(** [if q is not None: results = [a for a in results if test(a, q)]] *)
Definition narrow {A} (q : option string) (test : A -> string -> bool)
    (results : list A) : list A :=
  match q with
  | Some x => filter (fun a => test a x) results
  | None => results
  end.

Definition list_characters (name role alias gender ability : option string)
    : M (list CharacterRead.t) :=
  store <- get_characters ;;
  let results := dict_values store in
  let results := narrow name (fun a x => String.eqb (CharacterRead.name a) x) results in
  let results := narrow role (fun a x => String.eqb (CharacterRead.role a) x) results in
  let results := narrow alias (fun a x => optional_eqb (CharacterRead.alias a) x) results in
  let results := narrow gender (fun a x => optional_eqb (CharacterRead.gender a) x) results in
  let results := narrow ability (fun a x => String.eqb (CharacterRead.ability a) x) results in
  ret results.

Definition get_character (character_id : UUID) : M CharacterRead.t :=
  store <- get_characters ;;
  if negb (dict_contains character_id store) then
    raise (HTTPException 404 "character not found")
  else
    getitem character_id store.

Definition update_character (character_id : UUID) (update : CharacterUpdate.t)
    : M CharacterRead.t :=
  store <- get_characters ;;
  if negb (dict_contains character_id store) then
    raise (HTTPException 404 "Character not found")
  else
    current <- getitem character_id store ;;
    let stored := CharacterRead.model_dump current in
    let stored := dict_update stored (CharacterUpdate.model_dump_exclude_unset update) in
    fresh <- construct (CharacterRead.init stored) ;;
    setitem_characters character_id fresh ;;
    store' <- get_characters ;;
    getitem character_id store'.

(** ** Anime endpoints *)

Definition create_anime (anime : AnimeCreate.t) : M AnimeRead.t :=
  anime_read <- construct (AnimeRead.init (AnimeCreate.model_dump anime)) ;;
  setitem_animes (AnimeRead.id anime_read) anime_read ;;
  ret anime_read.

(** A list comprehension whose condition may raise: the first item whose
    condition raises aborts the whole expression. *)
Fixpoint comprehension {A} (cond : A -> result bool) (l : list A) : result (list A) :=
  match l with
  | [] => Ok []
  | x :: rest =>
      match cond x with
      | Raise e => Raise e
      | Ok keep =>
          match comprehension cond rest with
          | Raise e => Raise e
          | Ok kept => Ok (if keep then x :: kept else kept)
          end
      end
  end.

(** [any(char.gender == gender for char in p.addresses)]: the attribute
    lookup [p.addresses] comes first, and [AnimeRead] has no such field. *)
Definition any_address_has_gender (gender : string) (p : AnimeRead.t) : result bool :=
  Raise (AttributeError "addresses").

Definition list_animes
    (title genre seasons rating status streaming role gender : option string)
    : M (list AnimeRead.t) :=
  store <- get_animes ;;
  let results := dict_values store in
  let results := narrow title (fun p x => String.eqb (AnimeRead.title p) x) results in
  let results := narrow genre (fun p x => String.eqb (AnimeRead.genre p) x) results in
  let results := narrow seasons (fun p x => String.eqb (AnimeRead.seasons p) x) results in
  let results := narrow rating (fun p x => optional_eqb (AnimeRead.rating p) x) results in
  let results := narrow status (fun p x => String.eqb (AnimeRead.status p) x) results in
  (* [str(p.streaming)] is [p.streaming], which already is a string *)
  let results := narrow streaming (fun p x => String.eqb (AnimeRead.streaming p) x) results in
  let results :=
    narrow role
      (fun p x => existsb (fun char => String.eqb (CharacterBase.role char) x)
                          (AnimeRead.characters p))
      results in
  match gender with
  | Some g =>
      match comprehension (any_address_has_gender g) results with
      | Ok kept => ret kept
      | Raise e => raise e
      end
  | None => ret results
  end.

Definition get_anime (anime_id : UUID) : M AnimeRead.t :=
  store <- get_animes ;;
  if negb (dict_contains anime_id store) then
    raise (HTTPException 404 "Anime not found")
  else
    getitem anime_id store.

Definition update_anime (anime_id : UUID) (update : AnimeUpdate.t) : M AnimeRead.t :=
  store <- get_animes ;;
  if negb (dict_contains anime_id store) then
    raise (HTTPException 404 "Anime not found")
  else
    current <- getitem anime_id store ;;
    let stored := AnimeRead.model_dump current in
    let stored := dict_update stored (AnimeUpdate.model_dump_exclude_unset update) in
    fresh <- construct (AnimeRead.init stored) ;;
    setitem_animes anime_id fresh ;;
    store' <- get_animes ;;
    getitem anime_id store'.

(** ** The routes *)

Record CharacterQuery : Type := {
  q_name : option string;
  q_role : option string;
  q_alias : option string;
  q_gender : option string;
  q_ability : option string
}.

Record AnimeQuery : Type := {
  q_title : option string;
  q_genre : option string;
  q_seasons : option string;
  q_rating : option string;
  q_status : option string;
  q_streaming : option string;
  q_cast_role : option string;
  q_cast_gender : option string
}.

Inductive request : Type :=
| POST_characters (character : CharacterCreate.t)
| GET_characters (q : CharacterQuery)
| GET_character (character_id : UUID)
| PATCH_character (character_id : UUID) (update : CharacterUpdate.t)
| POST_animes (anime : AnimeCreate.t)
| GET_animes (q : AnimeQuery)
| GET_anime (anime_id : UUID)
| PATCH_anime (anime_id : UUID) (update : AnimeUpdate.t).

Inductive content : Type :=
| OneCharacter (c : CharacterRead.t)
| ManyCharacters (l : list CharacterRead.t)
| OneAnime (a : AnimeRead.t)
| ManyAnimes (l : list AnimeRead.t).

Definition fmap {A B} (f : A -> B) (m : M A) : M B :=
  a <- m ;; ret (f a).

Definition serve (r : request) : M content :=
  match r with
  | POST_characters c => fmap OneCharacter (create_character c)
  | GET_characters q =>
      fmap ManyCharacters
        (list_characters (q_name q) (q_role q) (q_alias q) (q_gender q) (q_ability q))
  | GET_character i => fmap OneCharacter (get_character i)
  | PATCH_character i u => fmap OneCharacter (update_character i u)
  | POST_animes a => fmap OneAnime (create_anime a)
  | GET_animes q =>
      fmap ManyAnimes
        (list_animes (q_title q) (q_genre q) (q_seasons q) (q_rating q)
                     (q_status q) (q_streaming q) (q_cast_role q) (q_cast_gender q))
  | GET_anime i => fmap OneAnime (get_anime i)
  | PATCH_anime i u => fmap OneAnime (update_anime i u)
  end.

(** The status a route answers with: its declared [status_code] on return,
    the exception's own code for [HTTPException], 500 for anything else. *)
Definition success_code (r : request) : Z :=
  match r with
  | POST_characters _ | POST_animes _ => 201
  | _ => 200
  end%Z.

Definition status {A} (on_success : Z) (r : result A) : Z :=
  match r with
  | Ok _ => on_success
  | Raise (HTTPException code _) => code
  | Raise _ => 500
  end%Z.

Definition answer (r : request) (w : World) : Z :=
  status (success_code r) (fst (serve r w)).

(** The process after a request, and after a sequence of requests. *)
Definition after (r : request) (w : World) : World := snd (serve r w).

Fixpoint run (rs : list request) (w : World) : World :=
  match rs with
  | [] => w
  | r :: rest => run rest (after r w)
  end.

(** A process starts with both dictionaries empty. *)
Definition boot (o : Oracle) : World :=
  {| animes := []; characters := []; oracle := o |}.

Definition reachable (w : World) : Prop :=
  exists o rs, run rs (boot o) = w.

(** ** Vocabulary of the properties *)

(** The body sets the field to an explicit [null]. *)
Definition is_null {A} (f : field (option A)) : bool :=
  match f with
  | Given None => true
  | _ => false
  end.

Definition is_given {A} (f : field A) : bool :=
  match f with
  | Given _ => true
  | Unset => false
  end.

(** What a partial update makes of one stored attribute: a field present in
    the body overwrites it, an absent one leaves it as it was. *)
Definition overwrite {A} (f : field A) (old : A) : A :=
  match f with
  | Given v => v
  | Unset => old
  end.

(** The same for a stored [str] attribute, which only a string can
    overwrite. *)
Definition overwrite_str (f : field (option string)) (old : string) : string :=
  match f with
  | Given (Some s) => s
  | _ => old
  end.

Definition overwrite_gender (f : field string) (old : option string) : option string :=
  match f with
  | Given s => Some s
  | Unset => old
  end.

(** A character record after a partial update took effect. *)
Definition patched_character (u : CharacterUpdate.t) (r : CharacterRead.t)
    : CharacterRead.t :=
  CharacterRead.mk
    (CharacterRead.id r)
    (overwrite_str (CharacterUpdate.name u) (CharacterRead.name r))
    (overwrite_str (CharacterUpdate.role u) (CharacterRead.role r))
    (overwrite (CharacterUpdate.alias u) (CharacterRead.alias r))
    (overwrite_gender (CharacterUpdate.gender u) (CharacterRead.gender r))
    (overwrite_str (CharacterUpdate.ability u) (CharacterRead.ability r))
    (CharacterRead.created_at r)
    (CharacterRead.updated_at r).

(** A character update body that puts [null] into none of the attributes
    annotated [str] on [CharacterRead]. *)
Definition character_update_fits (u : CharacterUpdate.t) : bool :=
  negb (is_null (CharacterUpdate.name u))
  && negb (is_null (CharacterUpdate.role u))
  && negb (is_null (CharacterUpdate.ability u)).

(** The stored character has a gender, or the update body brings one. *)
Definition gender_settled (u : CharacterUpdate.t) (r : CharacterRead.t) : bool :=
  is_given (CharacterUpdate.gender u)
  || match CharacterRead.gender r with Some _ => true | None => false end.

(** The body with no field set. *)
Definition empty_character_update : CharacterUpdate.t :=
  CharacterUpdate.mk Unset Unset Unset Unset Unset.

(** The same for anime update bodies; [characters] is annotated [List] on
    [AnimeRead], so it must not be [null] either. *)
Definition anime_update_fits (u : AnimeUpdate.t) : bool :=
  negb (is_null (AnimeUpdate.title u))
  && negb (is_null (AnimeUpdate.genre u))
  && negb (is_null (AnimeUpdate.seasons u))
  && negb (is_null (AnimeUpdate.status u))
  && negb (is_null (AnimeUpdate.streaming u))
  && negb (is_null (AnimeUpdate.characters u)).

(** The payload supplies [gender], which the data model requires. *)
Definition supplies_gender (c : CharacterBase.t) : bool :=
  match CharacterBase.gender c with
  | Some _ => true
  | None => false
  end.

(** An anime create payload in which every embedded character supplies
    [gender]. *)
Definition valid_anime_payload (a : AnimeCreate.t) : bool :=
  forallb supplies_gender (AnimeCreate.characters a).

(** The record a character create payload is stored as, given the two clock
    readings. *)
Definition character_record (c : CharacterCreate.t) (created updated : datetime)
    : CharacterRead.t :=
  CharacterRead.mk (CharacterBase.id c) (CharacterBase.name c) (CharacterBase.role c)
    (CharacterBase.alias c) (CharacterBase.gender c) (CharacterBase.ability c)
    created updated.

(** The record an anime create payload is stored as, given the minted
    identifier and the two clock readings. *)
Definition anime_record (a : AnimeCreate.t) (i : UUID) (created updated : datetime)
    : AnimeRead.t :=
  AnimeRead.mk (AnimeCreate.title a) (AnimeCreate.genre a) (AnimeCreate.seasons a)
    (AnimeCreate.rating a) (AnimeCreate.status a) (AnimeCreate.streaming a)
    (AnimeCreate.characters a) i created updated.

(** An embedded character of an update body as it ends up stored: the
    fields it supplies, [None] for an omitted [alias] or [gender], and
    [minted] for an omitted [id]. *)
Definition as_stored (minted : UUID) (b : CharacterBase.body) : CharacterBase.t :=
  CharacterBase.mk
    (overwrite (CharacterBase.b_id b) minted)
    (CharacterBase.b_name b)
    (CharacterBase.b_role b)
    (overwrite (CharacterBase.b_alias b) None)
    (overwrite_gender (CharacterBase.b_gender b) None)
    (CharacterBase.b_ability b).

(** A supplied list as it ends up stored; omitted identifiers are minted
    from [mint] in list order. *)
Fixpoint stored_cast (mint : nat -> UUID) (l : list CharacterBase.body)
    : list CharacterBase.t :=
  match l with
  | [] => []
  | b :: rest =>
      as_stored (mint 0) b
      :: stored_cast (if is_given (CharacterBase.b_id b) then mint
                      else fun n => mint (S n)) rest
  end.

(** The oracle once the identifiers omitted in a supplied list are minted. *)
Fixpoint after_minting (o : Oracle) (l : list CharacterBase.body) : Oracle :=
  match l with
  | [] => o
  | b :: rest =>
      after_minting (if is_given (CharacterBase.b_id b) then o else skip_uuid o) rest
  end.

(** An anime record after a partial update took effect, [cast] being its
    new list of characters. *)
Definition patched_anime (u : AnimeUpdate.t) (a : AnimeRead.t)
    (cast : list CharacterBase.t) : AnimeRead.t :=
  AnimeRead.mk
    (overwrite_str (AnimeUpdate.title u) (AnimeRead.title a))
    (overwrite_str (AnimeUpdate.genre u) (AnimeRead.genre a))
    (overwrite_str (AnimeUpdate.seasons u) (AnimeRead.seasons a))
    (overwrite (AnimeUpdate.rating u) (AnimeRead.rating a))
    (overwrite_str (AnimeUpdate.status u) (AnimeRead.status a))
    (overwrite_str (AnimeUpdate.streaming u) (AnimeRead.streaming a))
    cast
    (AnimeRead.id a)
    (AnimeRead.created_at a)
    (AnimeRead.updated_at a).

(** The list of characters an anime update leaves behind, if the update is
    accepted: the stored list is validated again when the body omits the
    field, and replaced when the body carries a list. *)
Definition cast_after_update (o : Oracle) (u : AnimeUpdate.t) (a : AnimeRead.t)
    : option (list CharacterBase.t) :=
  match AnimeUpdate.characters u with
  | Unset =>
      if forallb supplies_gender (AnimeRead.characters a)
      then Some (AnimeRead.characters a) else None
  | Given None => None
  | Given (Some l) => Some (stored_cast (entropy o) l)
  end.

Definition oracle_after_update (o : Oracle) (u : AnimeUpdate.t) : Oracle :=
  match AnimeUpdate.characters u with
  | Given (Some l) => after_minting o l
  | _ => o
  end.

(** Character List as the specification words it: a record is returned when
    it agrees with every filter that was supplied. *)
Definition agrees (filter : option string) (attribute : option string) : bool :=
  match filter with
  | None => true
  | Some x => optional_eqb attribute x
  end.

Definition matches (q : CharacterQuery) (a : CharacterRead.t) : bool :=
  agrees (q_name q) (Some (CharacterRead.name a))
  && agrees (q_role q) (Some (CharacterRead.role a))
  && agrees (q_alias q) (CharacterRead.alias a)
  && agrees (q_gender q) (CharacterRead.gender a)
  && agrees (q_ability q) (Some (CharacterRead.ability a)).

(** The animes that are left when the [gender] filter of Anime List is
    reached: the store narrowed by the seven filters before it. *)
Definition before_gender_filter
    (title genre seasons rating status streaming role : option string)
    (store : dict UUID AnimeRead.t) : list AnimeRead.t :=
  narrow role
    (fun p x => existsb (fun char => String.eqb (CharacterBase.role char) x)
                        (AnimeRead.characters p))
    (narrow streaming (fun p x => String.eqb (AnimeRead.streaming p) x)
       (narrow status (fun p x => String.eqb (AnimeRead.status p) x)
          (narrow rating (fun p x => optional_eqb (AnimeRead.rating p) x)
             (narrow seasons (fun p x => String.eqb (AnimeRead.seasons p) x)
                (narrow genre (fun p x => String.eqb (AnimeRead.genre p) x)
                   (narrow title (fun p x => String.eqb (AnimeRead.title p) x)
                      (dict_values store))))))).

(** Requests against the standalone character store. *)
Definition on_character_store (r : request) : bool :=
  match r with
  | POST_characters _ | GET_characters _ | GET_character _ | PATCH_character _ _ => true
  | _ => false
  end.

(** Requests that write the [characters] list stored under [anime_id]: an
    anime update whose body carries the field, and an anime create that is
    handed [anime_id] by [uuid4] (which creates the anime anew). *)
Definition writes_cast (anime_id : UUID) (w : World) (r : request) : bool :=
  match r with
  | PATCH_anime i u => N.eqb i anime_id && is_given (AnimeUpdate.characters u)
  | POST_animes _ => N.eqb (entropy (oracle w) 0) anime_id
  | _ => false
  end.

Fixpoint cast_untouched (anime_id : UUID) (rs : list request) (w : World) : Prop :=
  match rs with
  | [] => True
  | r :: rest =>
      writes_cast anime_id w r = false /\ cast_untouched anime_id rest (after r w)
  end.

(** The invariant of the two dictionaries: every key is the identifier of
    the record filed under it, and stored characters have a gender. *)
Definition keyed_by_id (w : World) : Prop :=
  (forall k r, dict_get k (characters w) = Some r -> CharacterRead.id r = k)
  /\ (forall k a, dict_get k (animes w) = Some a -> AnimeRead.id a = k).

Definition characters_complete (w : World) : Prop :=
  forall k r, dict_get k (characters w) = Some r -> CharacterRead.gender r <> None.

Definition store_invariant (w : World) : Prop :=
  keyed_by_id w
  /\ characters_complete w
  /\ NoDup (dict_keys (characters w))
  /\ NoDup (dict_keys (animes w)).

(** An embedded character of a body that sets all of its fields to those of
    [c]; a [gender] of [None] can only be left unset. *)
Definition fully_set (c : CharacterBase.t) : CharacterBase.body :=
  CharacterBase.mk_body
    (Given (CharacterBase.id c))
    (CharacterBase.name c)
    (CharacterBase.role c)
    (Given (CharacterBase.alias c))
    (match CharacterBase.gender c with Some g => Given g | None => Unset end)
    (CharacterBase.ability c).

(** ** Sample data, after the examples given in the model classes *)

(** An oracle whose clock advances between any two readings. *)
Definition ticking : Oracle :=
  {| entropy := fun n => (900 + N.of_nat n)%N;
     clock := fun n => (1000 + Z.of_nat n)%Z |}.

Definition eren : CharacterCreate.t :=
  CharacterBase.mk 199%N "Eren Yeager" "Protagonist" (Some "") (Some "Male")
    "Attack Titan Power".

Definition eren_stored : CharacterRead.t :=
  CharacterRead.mk 199%N "Eren Yeager" "Protagonist" (Some "") (Some "Male")
    "Attack Titan Power" 1000%Z 1001%Z.

(** The second example of [CharacterUpdate], sent as a create payload: it
    has no [gender]. *)
Definition sasuke_without_gender : CharacterCreate.t :=
  CharacterBase.mk 200%N "Sasuke Uchiha" "Rival" None None "Sharingan, Chidori".

Definition levi : CharacterBase.t :=
  CharacterBase.mk 177%N "Levi Ackerman" "Supporting"
    (Some "Humanity's Strongest Soldier") (Some "Male") "ODM mastery".

(** Update bodies: [{"role": "Rival"}], [{"name": null}], and a new cast
    sent together with [{"title": null}]. *)
Definition role_rival : CharacterUpdate.t :=
  CharacterUpdate.mk Unset (Given (Some "Rival")) Unset Unset Unset.

Definition name_null : CharacterUpdate.t :=
  CharacterUpdate.mk (Given None) Unset Unset Unset Unset.

Definition cast_levi : AnimeUpdate.t :=
  AnimeUpdate.mk Unset Unset Unset Unset Unset Unset (Given (Some [fully_set levi])).

Definition cast_levi_title_null : AnimeUpdate.t :=
  AnimeUpdate.mk (Given None) Unset Unset Unset Unset Unset
    (Given (Some [fully_set levi])).

Definition attack_on_titan : AnimeCreate.t :=
  AnimeCreate.mk "Attack on Titan" "Action" "4" (Some "5") "Completed" "Crunchyroll"
    [eren].

Definition attack_on_titan_stored : AnimeRead.t :=
  AnimeRead.mk "Attack on Titan" "Action" "4" (Some "5") "Completed" "Crunchyroll"
    [eren] 900%N 1000%Z 1001%Z.

(** The process after one character, respectively one anime, was created. *)
Definition eren_world : World := after (POST_characters eren) (boot ticking).
Definition titan_world : World := after (POST_animes attack_on_titan) (boot ticking).

Definition only_gender (g : string) : AnimeQuery :=
  {| q_title := None; q_genre := None; q_seasons := None; q_rating := None;
     q_status := None; q_streaming := None; q_cast_role := None;
     q_cast_gender := Some g |}.
(** ** Vocabulary of the further properties *)


(** Anime List without its [gender] filter, worded as one test per anime:
    the six scalar filters by equality, [role] by some embedded character. *)
Definition some_character_has_role (filter : option string) (p : AnimeRead.t) : bool :=
  match filter with
  | None => true
  | Some x =>
      existsb (fun char => String.eqb (CharacterBase.role char) x)
              (AnimeRead.characters p)
  end.

Definition anime_matches (q : AnimeQuery) (p : AnimeRead.t) : bool :=
  agrees (q_title q) (Some (AnimeRead.title p))
  && agrees (q_genre q) (Some (AnimeRead.genre p))
  && agrees (q_seasons q) (Some (AnimeRead.seasons p))
  && agrees (q_rating q) (AnimeRead.rating p)
  && agrees (q_status q) (Some (AnimeRead.status p))
  && agrees (q_streaming q) (Some (AnimeRead.streaming p))
  && some_character_has_role (q_cast_role q) p.

(** Requests against the anime store, and requests that only read. *)
Definition on_anime_store (r : request) : bool :=
  match r with
  | POST_animes _ | GET_animes _ | GET_anime _ | PATCH_anime _ _ => true
  | _ => false
  end.

Definition is_read (r : request) : bool :=
  match r with
  | GET_characters _ | GET_character _ | GET_animes _ | GET_anime _ => true
  | _ => false
  end.

Definition is_update (r : request) : bool :=
  match r with
  | PATCH_character _ _ | PATCH_anime _ _ => true
  | _ => false
  end.

(** The field of a body that stands for sending [f1] and then [f2]. *)
Definition later {A} (f1 f2 : field A) : field A :=
  match f2 with
  | Unset => f1
  | Given _ => f2
  end.

Definition then_update (u1 u2 : CharacterUpdate.t) : CharacterUpdate.t :=
  CharacterUpdate.mk
    (later (CharacterUpdate.name u1) (CharacterUpdate.name u2))
    (later (CharacterUpdate.role u1) (CharacterUpdate.role u2))
    (later (CharacterUpdate.alias u1) (CharacterUpdate.alias u2))
    (later (CharacterUpdate.gender u1) (CharacterUpdate.gender u2))
    (later (CharacterUpdate.ability u1) (CharacterUpdate.ability u2)).

(** Further sample data: an embedded character sent without [gender], the
    body [{"status": "Ongoing"}], and the process in which the cast of the
    sample anime was replaced by that character. *)
Definition levi_without_gender : CharacterBase.body :=
  CharacterBase.mk_body (Given 177%N) "Levi Ackerman" "Supporting"
    (Given (Some "Humanity's Strongest Soldier")) Unset "ODM mastery".

Definition cast_without_gender : AnimeUpdate.t :=
  AnimeUpdate.mk Unset Unset Unset Unset Unset Unset
    (Given (Some [levi_without_gender])).

Definition status_ongoing : AnimeUpdate.t :=
  AnimeUpdate.mk Unset Unset Unset Unset (Given (Some "Ongoing")) Unset Unset.

Definition attack_on_titan_incomplete : AnimeCreate.t :=
  AnimeCreate.mk "Attack on Titan" "Action" "4" (Some "5") "Completed" "Crunchyroll"
    [CharacterBase.mk 177%N "Levi Ackerman" "Supporting" None None "ODM mastery"].

Definition stuck_world : World :=
  after (PATCH_anime 900%N cast_without_gender) titan_world.

(** The character store with two records, Eren created before Levi. *)
Definition levi_character_stored : CharacterRead.t :=
  CharacterRead.mk 177%N "Levi Ackerman" "Supporting"
    (Some "Humanity's Strongest Soldier") (Some "Male") "ODM mastery" 1002%Z 1003%Z.

Definition eren_levi_world : World := after (POST_characters levi) eren_world.

Definition only_character_gender (g : string) : CharacterQuery :=
  {| q_name := None; q_role := None; q_alias := None; q_gender := Some g;
     q_ability := None |}.

(** Two bodies that both set [role]; only the first sets [alias], only the
    second sets [name]. *)
Definition rival_with_alias : CharacterUpdate.t :=
  CharacterUpdate.mk Unset (Given (Some "Rival")) (Given (Some "Avenger")) Unset Unset.

Definition supporting_renamed : CharacterUpdate.t :=
  CharacterUpdate.mk (Given (Some "Sasuke Uchiha")) (Given (Some "Supporting"))
    Unset Unset Unset.

Definition no_filter : CharacterQuery :=
  {| q_name := None; q_role := None; q_alias := None; q_gender := None;
     q_ability := None |}.

Definition by_role (x : string) : AnimeQuery :=
  {| q_title := None; q_genre := None; q_seasons := None; q_rating := None;
     q_status := None; q_streaming := None; q_cast_role := Some x;
     q_cast_gender := None |}.

(** * Properties *)

Unset Implicit Arguments.

(** ** Dictionaries *)

Section DictFacts.
Context {K V : Type} `{Hashable K}.
Implicit Types (k : K) (v : V) (d : dict K V).

Lemma key_eqb_refl k : key_eqb k k = true.
Proof. destruct (key_eqb_spec k k); congruence. Qed.

Lemma key_eqb_neq k k' : k <> k' -> key_eqb k k' = false.
Proof. intros Hne. destruct (key_eqb_spec k k'); congruence. Qed.

Lemma dict_get_set_eq k v d : dict_get k (dict_set k v d) = Some v.
Proof.
  induction d as [|[k' v'] d IH]; simpl.
  - now rewrite key_eqb_refl.
  - destruct (key_eqb_spec k k') as [->|Hne]; simpl.
    + now rewrite key_eqb_refl.
    + now rewrite key_eqb_neq by assumption.
Qed.

Lemma dict_get_set_neq k k' v d :
  k <> k' -> dict_get k' (dict_set k v d) = dict_get k' d.
Proof.
  intros Hne. induction d as [|[k0 v0] d IH]; simpl.
  - rewrite key_eqb_neq; congruence.
  - destruct (key_eqb_spec k k0) as [->|Hk]; simpl.
    + rewrite key_eqb_neq; congruence.
    + now rewrite IH.
Qed.

Lemma dict_get_set k k' v d :
  dict_get k' (dict_set k v d) = if key_eqb k' k then Some v else dict_get k' d.
Proof.
  destruct (key_eqb_spec k' k) as [->|Hne].
  - apply dict_get_set_eq.
  - apply dict_get_set_neq. congruence.
Qed.

(** Assigning to a missing key appends the item. *)
Lemma dict_set_new k v d : dict_get k d = None -> dict_set k v d = d ++ [(k, v)].
Proof.
  induction d as [|[k' v'] d IH]; simpl; [reflexivity|].
  destruct (key_eqb k k'); [discriminate|].
  intros Hnone. now rewrite IH.
Qed.

(** Assigning a key the value it already has changes nothing. *)
Lemma dict_set_same k v d : dict_get k d = Some v -> dict_set k v d = d.
Proof.
  induction d as [|[k' v'] d IH]; simpl; [discriminate|].
  destruct (key_eqb k k').
  - now intros [= ->].
  - intros Hget. now rewrite IH.
Qed.

(** Assigning to an existing key keeps the keys and their order. *)
Lemma dict_keys_set_old k v v' d :
  dict_get k d = Some v' -> dict_keys (dict_set k v d) = dict_keys d.
Proof.
  unfold dict_keys.
  induction d as [|[k' v0] d IH]; simpl; [discriminate|].
  destruct (key_eqb k k'); simpl; [reflexivity|].
  intros Hget. now rewrite IH.
Qed.

Lemma dict_get_in k v d : dict_get k d = Some v -> In (k, v) d.
Proof.
  induction d as [|[k' v'] d IH]; simpl; [discriminate|].
  destruct (key_eqb_spec k k') as [->|Hne].
  - intros [= ->]. now left.
  - intros Hget. right. now apply IH.
Qed.

Lemma dict_get_none_keys k d : dict_get k d = None -> ~ In k (dict_keys d).
Proof.
  unfold dict_keys.
  induction d as [|[k' v'] d IH]; simpl; [tauto|].
  destruct (key_eqb_spec k k') as [->|Hne]; [discriminate|].
  intros Hget [Heq|Hin]; [congruence|]. now apply IH.
Qed.

Lemma dict_keys_nodup_set k v d :
  NoDup (dict_keys d) -> NoDup (dict_keys (dict_set k v d)).
Proof.
  intros Hnd. destruct (dict_get k d) as [v'|] eqn:Hget.
  - now erewrite dict_keys_set_old by eassumption.
  - rewrite dict_set_new by assumption. unfold dict_keys. rewrite map_app. simpl.
    apply dict_get_none_keys in Hget.
    apply NoDup_app; [assumption|repeat constructor; simpl; tauto|].
    intros x Hin [<-|[]]. now apply Hget.
Qed.

Lemma dict_contains_true k d :
  dict_contains k d = true <-> exists v, dict_get k d = Some v.
Proof.
  unfold dict_contains. destruct (dict_get k d) as [v|].
  - split; [eauto|reflexivity].
  - split; [discriminate|]. intros [v Hv]. discriminate.
Qed.

Lemma dict_contains_false k d : dict_contains k d = false <-> dict_get k d = None.
Proof.
  unfold dict_contains. destruct (dict_get k d); split; congruence.
Qed.

Lemma dict_get_app k (d d' : dict K V) :
  dict_get k (d ++ d') =
  match dict_get k d with Some v => Some v | None => dict_get k d' end.
Proof.
  induction d as [|[k' v'] d IH]; simpl; [reflexivity|].
  now destruct (key_eqb k k').
Qed.

(** In [d.update(other)] the last item of [other] with a given key wins,
    and keys that [other] lacks keep their value. *)
Lemma dict_get_update k (d other : dict K V) :
  dict_get k (dict_update d other) =
  match dict_get k (rev other) with Some v => Some v | None => dict_get k d end.
Proof.
  unfold dict_update. revert d.
  induction other as [|[k' v'] other IH]; intros d; simpl; [reflexivity|].
  rewrite IH, dict_get_app, dict_get_set. simpl.
  destruct (dict_get k (rev other)); [reflexivity|].
  now destruct (key_eqb k k').
Qed.
End DictFacts.


(** ** Keyword dictionaries and validation *)

Lemma present_rev A key (dump : A -> pyval) (f : field A) :
  rev (present key dump f) = present key dump f.
Proof. now destruct f. Qed.

Lemma dict_get_present A k key (dump : A -> pyval) (f : field A) :
  dict_get k (present key dump f) =
  if String.eqb k key
  then match f with Given v => Some (dump v) | Unset => None end
  else None.
Proof. destruct f; simpl; now destruct (String.eqb k key). Qed.

(** Looks a literal key up in a stored dump updated with a partial dump. *)
Ltac lookup :=
  rewrite ?dict_get_update;
  unfold CharacterUpdate.model_dump_exclude_unset, AnimeUpdate.model_dump_exclude_unset;
  rewrite ?rev_app_distr, ?present_rev, ?dict_get_app, ?dict_get_present;
  simpl.

Lemma CharacterBase_init_dump c o :
  CharacterBase.init (CharacterBase.model_dump c) o =
  (if supplies_gender c then Some c else None, o).
Proof. destruct c as [i n r [al|] [g|] ab]; reflexivity. Qed.

Lemma character_list_dump l o :
  character_list (dump_characters l) o =
  (if forallb supplies_gender l then Some l else None, o).
Proof.
  unfold character_list, dump_characters.
  induction l as [|c l IH]; [reflexivity|].
  cbn [map vtraverse forallb]. unfold vap at 1 2. cbn [vpure].
  rewrite CharacterBase_init_dump, IH.
  destruct (supplies_gender c), (forallb supplies_gender l); reflexivity.
Qed.

Lemma CharacterBase_init_body b o :
  CharacterBase.init (CharacterBase.model_dump_exclude_unset b) o =
  (Some (as_stored (entropy o 0) b),
   if is_given (CharacterBase.b_id b) then o else skip_uuid o).
Proof. destruct b as [[|i] n r [|[al|]] [|g] ab]; reflexivity. Qed.

Lemma character_list_bodies l o :
  character_list
    (PList (map (fun c => PDict (CharacterBase.model_dump_exclude_unset c)) l)) o =
  (Some (stored_cast (entropy o) l), after_minting o l).
Proof.
  unfold character_list. revert o.
  induction l as [|b l IH]; intros o; [reflexivity|].
  cbn [map vtraverse stored_cast after_minting]. unfold vap at 1 2. cbn [vpure].
  rewrite CharacterBase_init_body, IH.
  now destruct (is_given (CharacterBase.b_id b)).
Qed.

(** A stored character record, dumped, updated with a partial dump and
    validated again. *)
Lemma CharacterRead_init_merged r u o :
  CharacterRead.init
    (dict_update (CharacterRead.model_dump r)
                 (CharacterUpdate.model_dump_exclude_unset u)) o =
  (if character_update_fits u && gender_settled u r
   then Some (patched_character u r) else None, o).
Proof.
  unfold CharacterRead.init, required, defaulted. lookup.
  destruct r as [i n ro al g ab c up], u as [un ur ual ug uab]; simpl in *.
  destruct un as [|[?|]], ur as [|[?|]], ual as [|[?|]], ug as [|?],
           uab as [|[?|]], al as [?|], g as [?|];
    reflexivity.
Qed.

Lemma AnimeRead_init_merged a u o :
  AnimeRead.init
    (dict_update (AnimeRead.model_dump a) (AnimeUpdate.model_dump_exclude_unset u)) o =
  (if anime_update_fits u
   then option_map (patched_anime u a) (cast_after_update o u a)
   else None,
   oracle_after_update o u).
Proof.
  unfold AnimeRead.init.
  match goal with
  | |- (?P <*> ?C <*> ?I <*> ?T1 <*> ?T2) o = _ =>
      set (prefix := P); set (cast := C); set (ident := I);
      set (created := T1); set (updated := T2)
  end.
  assert (Hprefix :
    prefix o =
    (if negb (is_null (AnimeUpdate.title u)) && negb (is_null (AnimeUpdate.genre u))
        && negb (is_null (AnimeUpdate.seasons u)) && negb (is_null (AnimeUpdate.status u))
        && negb (is_null (AnimeUpdate.streaming u))
     then Some (AnimeRead.mk
                  (overwrite_str (AnimeUpdate.title u) (AnimeRead.title a))
                  (overwrite_str (AnimeUpdate.genre u) (AnimeRead.genre a))
                  (overwrite_str (AnimeUpdate.seasons u) (AnimeRead.seasons a))
                  (overwrite (AnimeUpdate.rating u) (AnimeRead.rating a))
                  (overwrite_str (AnimeUpdate.status u) (AnimeRead.status a))
                  (overwrite_str (AnimeUpdate.streaming u) (AnimeRead.streaming a)))
     else None, o)).
  { subst prefix. unfold required, defaulted. lookup.
    destruct a as [t g s r st sm cs i c up], u as [ut ug us ur ust usm uc]; simpl.
    destruct ut as [|[?|]], ug as [|[?|]], us as [|[?|]], ur as [|[?|]],
             ust as [|[?|]], usm as [|[?|]], r as [?|]; reflexivity. }
  assert (Hident : forall o', ident o' = (Some (AnimeRead.id a), o')).
  { intros o'. subst ident. unfold defaulted. lookup. reflexivity. }
  assert (Hcreated : forall o', created o' = (Some (AnimeRead.created_at a), o')).
  { intros o'. subst created. unfold defaulted. lookup. reflexivity. }
  assert (Hupdated : forall o', updated o' = (Some (AnimeRead.updated_at a), o')).
  { intros o'. subst updated. unfold defaulted. lookup. reflexivity. }
  assert (Hcast : cast o = (if is_null (AnimeUpdate.characters u) then None
                            else cast_after_update o u a, oracle_after_update o u)).
  { subst cast. unfold defaulted, cast_after_update, oracle_after_update. lookup.
    destruct (AnimeUpdate.characters u) as [|[l|]]; simpl.
    - apply character_list_dump.
    - apply character_list_bodies.
    - reflexivity. }
  unfold vap. rewrite Hprefix, Hcast, Hident, Hcreated, Hupdated.
  unfold anime_update_fits.
  destruct (is_null (AnimeUpdate.title u)), (is_null (AnimeUpdate.genre u)),
    (is_null (AnimeUpdate.seasons u)), (is_null (AnimeUpdate.status u)),
    (is_null (AnimeUpdate.streaming u)), (is_null (AnimeUpdate.characters u));
    simpl; try reflexivity; destruct (cast_after_update o u a); reflexivity.
Qed.

(** A create payload, dumped and validated as the stored class. *)
Lemma CharacterRead_init_create c o :
  CharacterRead.init (CharacterCreate.model_dump c) o =
  (if supplies_gender c
   then Some (character_record c (clock o 0) (clock o 1)) else None,
   skip_time (skip_time o)).
Proof. destruct c as [i n r [al|] [g|] ab]; reflexivity. Qed.

Lemma AnimeRead_init_create a o :
  AnimeRead.init (AnimeCreate.model_dump a) o =
  (if valid_anime_payload a
   then Some (anime_record a (entropy o 0) (clock o 0) (clock o 1)) else None,
   skip_time (skip_time (skip_uuid o))).
Proof.
  unfold AnimeRead.init, valid_anime_payload.
  match goal with
  | |- (?P <*> ?C <*> ?I <*> ?T1 <*> ?T2) o = _ =>
      set (prefix := P); set (cast := C)
  end.
  assert (Hprefix :
    prefix o =
    (Some (AnimeRead.mk (AnimeCreate.title a) (AnimeCreate.genre a)
             (AnimeCreate.seasons a) (AnimeCreate.rating a) (AnimeCreate.status a)
             (AnimeCreate.streaming a)), o)).
  { subst prefix. destruct a as [t g s [r|] st sm cs]; reflexivity. }
  assert (Hcast : cast o =
    (if forallb supplies_gender (AnimeCreate.characters a)
     then Some (AnimeCreate.characters a) else None, o)).
  { subst cast. unfold defaulted. simpl. apply character_list_dump. }
  unfold vap. rewrite Hprefix, Hcast. simpl.
  now destruct (forallb supplies_gender (AnimeCreate.characters a)).
Qed.

(** ** What each handler does *)

Lemma with_oracle_same w : with_oracle w (oracle w) = w.
Proof. now destruct w. Qed.

Lemma create_character_run c w :
  create_character c w =
  if dict_contains (CharacterBase.id c) (characters w) then
    (Raise (HTTPException 400 "Character with this ID already exists"), w)
  else if supplies_gender c then
    let r := character_record c (clock (oracle w) 0) (clock (oracle w) 1) in
    (Ok r,
     with_characters (with_oracle w (skip_time (skip_time (oracle w))))
       (dict_set (CharacterBase.id c) r (characters w)))
  else
    (Raise ValidationError, with_oracle w (skip_time (skip_time (oracle w)))).
Proof.
  unfold create_character, bind, get_characters, construct.
  destruct (dict_contains (CharacterBase.id c) (characters w)); [reflexivity|].
  rewrite CharacterRead_init_create.
  destruct (supplies_gender c); [|reflexivity].
  unfold setitem_characters, getitem. cbn [characters with_characters with_oracle].
  now rewrite dict_get_set_eq.
Qed.

Lemma get_character_run i w :
  get_character i w =
  (match dict_get i (characters w) with
   | Some r => Ok r
   | None => Raise (HTTPException 404 "character not found")
   end, w).
Proof.
  unfold get_character, bind, get_characters, getitem, dict_contains.
  now destruct (dict_get i (characters w)).
Qed.

Lemma update_character_run i u w :
  update_character i u w =
  match dict_get i (characters w) with
  | None => (Raise (HTTPException 404 "Character not found"), w)
  | Some r =>
      if character_update_fits u && gender_settled u r then
        (Ok (patched_character u r),
         with_characters w (dict_set i (patched_character u r) (characters w)))
      else (Raise ValidationError, w)
  end.
Proof.
  unfold update_character, bind, get_characters, getitem, dict_contains, construct.
  destruct (dict_get i (characters w)) as [r|] eqn:Hget; [|reflexivity].
  cbn [negb ret]. rewrite CharacterRead_init_merged.
  destruct (character_update_fits u && gender_settled u r).
  - unfold setitem_characters. cbn [characters with_characters with_oracle].
    now rewrite dict_get_set_eq.
  - now rewrite with_oracle_same.
Qed.

Lemma list_characters_run name role alias gender ability w :
  list_characters name role alias gender ability w =
  (Ok (narrow ability (fun a x => String.eqb (CharacterRead.ability a) x)
         (narrow gender (fun a x => optional_eqb (CharacterRead.gender a) x)
            (narrow alias (fun a x => optional_eqb (CharacterRead.alias a) x)
               (narrow role (fun a x => String.eqb (CharacterRead.role a) x)
                  (narrow name (fun a x => String.eqb (CharacterRead.name a) x)
                     (dict_values (characters w))))))), w).
Proof. reflexivity. Qed.

Lemma create_anime_run a w :
  create_anime a w =
  let o := oracle w in
  if valid_anime_payload a then
    let r := anime_record a (entropy o 0) (clock o 0) (clock o 1) in
    (Ok r,
     with_animes (with_oracle w (skip_time (skip_time (skip_uuid o))))
       (dict_set (entropy o 0) r (animes w)))
  else
    (Raise ValidationError, with_oracle w (skip_time (skip_time (skip_uuid o)))).
Proof.
  unfold create_anime, bind, construct. rewrite AnimeRead_init_create.
  now destruct (valid_anime_payload a).
Qed.

Lemma comprehension_raising g l :
  comprehension (any_address_has_gender g) l =
  match l with
  | [] => Ok []
  | _ :: _ => Raise (AttributeError "addresses")
  end.
Proof. now destruct l. Qed.

Lemma list_animes_run title genre seasons rating status streaming role gender w :
  list_animes title genre seasons rating status streaming role gender w =
  let results :=
    before_gender_filter title genre seasons rating status streaming role (animes w) in
  (match gender with
   | None => Ok results
   | Some _ =>
       match results with
       | [] => Ok []
       | _ :: _ => Raise (AttributeError "addresses")
       end
   end, w).
Proof.
  unfold list_animes, bind, get_animes. cbv zeta.
  fold (before_gender_filter title genre seasons rating status streaming role (animes w)).
  destruct gender as [g|]; [|reflexivity].
  rewrite comprehension_raising.
  now destruct (before_gender_filter _ _ _ _ _ _ _ _).
Qed.

Lemma get_anime_run i w :
  get_anime i w =
  (match dict_get i (animes w) with
   | Some a => Ok a
   | None => Raise (HTTPException 404 "Anime not found")
   end, w).
Proof.
  unfold get_anime, bind, get_animes, getitem, dict_contains.
  now destruct (dict_get i (animes w)).
Qed.

Lemma update_anime_run i u w :
  update_anime i u w =
  match dict_get i (animes w) with
  | None => (Raise (HTTPException 404 "Anime not found"), w)
  | Some a =>
      let o := oracle_after_update (oracle w) u in
      match (if anime_update_fits u then cast_after_update (oracle w) u a else None) with
      | Some cast =>
          (Ok (patched_anime u a cast),
           with_animes (with_oracle w o) (dict_set i (patched_anime u a cast) (animes w)))
      | None => (Raise ValidationError, with_oracle w o)
      end
  end.
Proof.
  unfold update_anime, bind, get_animes, getitem, dict_contains, construct.
  destruct (dict_get i (animes w)) as [a|] eqn:Hget; [|reflexivity].
  cbn [negb ret]. rewrite AnimeRead_init_merged.
  destruct (anime_update_fits u); [|reflexivity].
  destruct (cast_after_update (oracle w) u a) as [cast|]; [|reflexivity].
  cbn [option_map]. unfold setitem_animes. cbn [animes with_animes with_oracle].
  now rewrite dict_get_set_eq.
Qed.

Lemma status_fmap {A B} (f : A -> B) (m : M A) (w : World) (code : Z) :
  status code (fst (fmap f m w)) = status code (fst (m w)).
Proof.
  unfold fmap, bind, ret. now destruct (m w) as [[a|e] w'].
Qed.

(** ** The process after each kind of request *)

(** Unfolds one request down to the handler lemmas above. *)
Ltac handle :=
  unfold after, serve, fmap, bind, ret;
  rewrite ?create_character_run, ?list_characters_run, ?get_character_run,
    ?update_character_run, ?create_anime_run, ?list_animes_run, ?get_anime_run,
    ?update_anime_run;
  cbv zeta.

Lemma after_GET_characters q w : after (GET_characters q) w = w.
Proof. reflexivity. Qed.

Lemma after_GET_character i w : after (GET_character i) w = w.
Proof. handle. now destruct (dict_get i (characters w)). Qed.

Lemma after_GET_animes q w : after (GET_animes q) w = w.
Proof.
  handle. destruct (q_cast_gender q); [|reflexivity].
  now destruct (before_gender_filter _ _ _ _ _ _ _ _).
Qed.

Lemma after_GET_anime i w : after (GET_anime i) w = w.
Proof. handle. now destruct (dict_get i (animes w)). Qed.

Lemma after_POST_characters c w :
  after (POST_characters c) w =
  if dict_contains (CharacterBase.id c) (characters w) then w
  else
    let w' := with_oracle w (skip_time (skip_time (oracle w))) in
    if supplies_gender c then
      with_characters w'
        (dict_set (CharacterBase.id c)
           (character_record c (clock (oracle w) 0) (clock (oracle w) 1))
           (characters w))
    else w'.
Proof.
  handle. destruct (dict_contains _ _); [reflexivity|].
  now destruct (supplies_gender c).
Qed.

Lemma after_PATCH_character i u w :
  after (PATCH_character i u) w =
  match dict_get i (characters w) with
  | None => w
  | Some r =>
      if character_update_fits u && gender_settled u r then
        with_characters w (dict_set i (patched_character u r) (characters w))
      else w
  end.
Proof.
  handle. destruct (dict_get i (characters w)) as [r|]; [|reflexivity].
  now destruct (character_update_fits u && gender_settled u r).
Qed.

Lemma after_POST_animes a w :
  after (POST_animes a) w =
  let o := oracle w in
  let w' := with_oracle w (skip_time (skip_time (skip_uuid o))) in
  if valid_anime_payload a then
    with_animes w'
      (dict_set (entropy o 0)
         (anime_record a (entropy o 0) (clock o 0) (clock o 1)) (animes w))
  else w'.
Proof. handle. now destruct (valid_anime_payload a). Qed.

Lemma after_PATCH_anime i u w :
  after (PATCH_anime i u) w =
  match dict_get i (animes w) with
  | None => w
  | Some a =>
      let w' := with_oracle w (oracle_after_update (oracle w) u) in
      match (if anime_update_fits u then cast_after_update (oracle w) u a else None) with
      | Some cast => with_animes w' (dict_set i (patched_anime u a cast) (animes w))
      | None => w'
      end
  end.
Proof.
  handle. destruct (dict_get i (animes w)) as [a|]; [|reflexivity].
  now destruct (if anime_update_fits u then _ else _).
Qed.

(** Rewrites [after] on a request of known kind. *)
Ltac stepped :=
  rewrite ?after_GET_characters, ?after_GET_character, ?after_GET_animes,
    ?after_GET_anime, ?after_POST_characters, ?after_PATCH_character,
    ?after_POST_animes, ?after_PATCH_anime;
  cbv zeta.

(** ** The invariant of the two dictionaries *)

Lemma invariant_boot o : store_invariant (boot o).
Proof.
  repeat split; try constructor; intros k r; discriminate.
Qed.

Lemma patched_character_gender u r :
  CharacterRead.gender r <> None ->
  CharacterRead.gender (patched_character u r) <> None.
Proof.
  destruct u as [un ur ual [|g] uab]; simpl; [tauto|discriminate].
Qed.

Lemma invariant_after q w : store_invariant w -> store_invariant (after q w).
Proof.
  intros Hinv. pose proof Hinv as [[Hc Ha] [Hg [Hndc Hnda]]].
  unfold characters_complete in Hg.
  destruct q as [c|q|i|i u|a|q|i|i u]; stepped; try assumption.
  - (* POST /characters *)
    destruct (dict_contains (CharacterBase.id c) (characters w)); [assumption|].
    destruct (supplies_gender c) eqn:Hsup; [|exact Hinv].
    unfold store_invariant, keyed_by_id, characters_complete. simpl.
    repeat split; try assumption.
    + intros k r. rewrite dict_get_set.
      destruct (key_eqb_spec k (CharacterBase.id c)) as [->|Hne]; [|apply Hc].
      now intros [= <-].
    + intros k r. rewrite dict_get_set.
      destruct (key_eqb_spec k (CharacterBase.id c)) as [->|Hne]; [|apply Hg].
      intros [= <-]. unfold supplies_gender in Hsup. simpl.
      destruct (CharacterBase.gender c); congruence.
    + now apply dict_keys_nodup_set.
  - (* PATCH /characters/{id} *)
    destruct (dict_get i (characters w)) as [r|] eqn:Hget; [|assumption].
    destruct (character_update_fits u && gender_settled u r); [|assumption].
    unfold store_invariant, keyed_by_id, characters_complete. simpl.
    repeat split; try assumption.
    + intros k r'. rewrite dict_get_set.
      destruct (key_eqb_spec k i) as [->|Hne]; [|apply Hc].
      intros [= <-]. simpl. now apply Hc.
    + intros k r'. rewrite dict_get_set.
      destruct (key_eqb_spec k i) as [->|Hne]; [|apply Hg].
      intros [= <-]. apply patched_character_gender. now apply (Hg i).
    + now apply dict_keys_nodup_set.
  - (* POST /animes *)
    destruct (valid_anime_payload a); [|exact Hinv].
    unfold store_invariant, keyed_by_id, characters_complete. simpl.
    repeat split; try assumption.
    + intros k r. rewrite dict_get_set.
      destruct (key_eqb_spec k (entropy (oracle w) 0)) as [->|Hne]; [|apply Ha].
      now intros [= <-].
    + now apply dict_keys_nodup_set.
  - (* PATCH /animes/{id} *)
    destruct (dict_get i (animes w)) as [a|] eqn:Hget; [|assumption].
    destruct (if anime_update_fits u then _ else _) as [cast|]; [|exact Hinv].
    unfold store_invariant, keyed_by_id, characters_complete. simpl.
    repeat split; try assumption.
    + intros k r'. rewrite dict_get_set.
      destruct (key_eqb_spec k i) as [->|Hne]; [|apply Ha].
      intros [= <-]. simpl. now apply Ha.
    + now apply dict_keys_nodup_set.
Qed.

Lemma invariant_run rs w : store_invariant w -> store_invariant (run rs w).
Proof.
  revert w. induction rs as [|r rs IH]; intros w Hinv; simpl; [assumption|].
  apply IH. now apply invariant_after.
Qed.

Lemma reachable_invariant w : reachable w -> store_invariant w.
Proof.
  intros (o & rs & <-). apply invariant_run, invariant_boot.
Qed.

(** ** Sample processes *)

Lemma eren_world_reachable : reachable eren_world.
Proof. exists ticking, [POST_characters eren]. reflexivity. Qed.

Lemma titan_world_reachable : reachable titan_world.
Proof. exists ticking, [POST_animes attack_on_titan]. reflexivity. Qed.

(** ** Partial update of a character *)

Lemma reachable_gender_settled w i r u :
  reachable w -> dict_get i (characters w) = Some r -> gender_settled u r = true.
Proof.
  intros Hreach Hget. apply reachable_invariant in Hreach.
  destruct Hreach as (_ & Hg & _). specialize (Hg i r Hget).
  unfold gender_settled. destruct (CharacterRead.gender r); [|congruence].
  apply orb_true_r.
Qed.

(** C1, counterexample: a body that carries [{"name": null}] is a partial
    update body, yet the update of an existing character raises
    [ValidationError] and the field it names is not overwritten: the record
    is left as it was. *)
Lemma update_character_null_name_not_written :
  reachable eren_world
  /\ dict_get 199%N (characters eren_world) = Some eren_stored
  /\ CharacterUpdate.name name_null = Given None
  /\ fst (update_character 199%N name_null eren_world) = Raise ValidationError
  /\ dict_get 199%N (characters (snd (update_character 199%N name_null eren_world)))
     = Some eren_stored
  /\ CharacterRead.name eren_stored = "Eren Yeager".
Proof.
  split; [exact eren_world_reachable|]. repeat split; reflexivity.
Qed.

(** A body that puts [null] into [name], [role] or [ability] is rejected,
    and the process is left as it was. *)
Lemma update_character_null_rejected w i r u :
  dict_get i (characters w) = Some r ->
  character_update_fits u = false ->
  update_character i u w = (Raise ValidationError, w).
Proof.
  intros Hget Hfits. now rewrite update_character_run, Hget, Hfits.
Qed.

(** C1, as amended: for every character id present in the store and every
    partial-update body that carries no explicit null for [name], [role] or
    [ability], Update succeeds and overwrites exactly the fields present in
    the body; every other field, including [id] and [created_at], is
    preserved, [updated_at] is not refreshed, and no other record of either
    store changes. *)
Theorem update_character_overwrites_present_fields :
  forall w i r u,
    reachable w ->
    dict_get i (characters w) = Some r ->
    character_update_fits u = true ->
    let r' := patched_character u r in
    let w' := snd (update_character i u w) in
    fst (update_character i u w) = Ok r'
    /\ dict_get i (characters w') = Some r'
    /\ CharacterRead.id r' = CharacterRead.id r
    /\ CharacterRead.created_at r' = CharacterRead.created_at r
    /\ CharacterRead.updated_at r' = CharacterRead.updated_at r
    /\ CharacterRead.name r' = overwrite_str (CharacterUpdate.name u) (CharacterRead.name r)
    /\ CharacterRead.role r' = overwrite_str (CharacterUpdate.role u) (CharacterRead.role r)
    /\ CharacterRead.alias r' = overwrite (CharacterUpdate.alias u) (CharacterRead.alias r)
    /\ CharacterRead.gender r'
       = overwrite_gender (CharacterUpdate.gender u) (CharacterRead.gender r)
    /\ CharacterRead.ability r'
       = overwrite_str (CharacterUpdate.ability u) (CharacterRead.ability r)
    /\ (forall k, k <> i -> dict_get k (characters w') = dict_get k (characters w))
    /\ animes w' = animes w.
Proof.
  intros w i r u Hreach Hget Hfits r' w'. subst w'.
  rewrite update_character_run, Hget, Hfits,
    (reachable_gender_settled w i r u Hreach Hget).
  cbn [andb fst snd characters animes with_characters].
  rewrite dict_get_set_eq. repeat split; try reflexivity.
  intros k Hne. apply dict_get_set_neq. congruence.
Qed.

Lemma update_character_overwrites_present_fields_witness :
  reachable eren_world
  /\ dict_get 199%N (characters eren_world) = Some eren_stored
  /\ character_update_fits role_rival = true
  /\ fst (update_character 199%N role_rival eren_world)
     = Ok (patched_character role_rival eren_stored)
  /\ CharacterRead.role (patched_character role_rival eren_stored) = "Rival"
  /\ CharacterRead.updated_at (patched_character role_rival eren_stored) = 1001%Z.
Proof.
  pose proof (update_character_overwrites_present_fields
                eren_world 199%N eren_stored role_rival
                eren_world_reachable eq_refl eq_refl) as H.
  split; [exact eren_world_reachable|].
  split; [reflexivity|]. split; [reflexivity|].
  split; [exact (proj1 H)|]. split; reflexivity.
Defined.

(** The empty body is accepted and changes nothing. *)
Lemma update_character_empty_noop w i r :
  reachable w ->
  dict_get i (characters w) = Some r ->
  update_character i empty_character_update w = (Ok r, w).
Proof.
  intros Hreach Hget.
  rewrite update_character_run, Hget,
    (reachable_gender_settled w i r empty_character_update Hreach Hget).
  cbn [character_update_fits empty_character_update CharacterUpdate.name
       CharacterUpdate.role CharacterUpdate.ability is_null negb andb].
  assert (Hsame : patched_character empty_character_update r = r) by now destruct r.
  rewrite Hsame, (dict_set_same _ _ _ Hget). now destruct w.
Qed.

(** C5: for every character id present in the store, Update with an empty
    partial body leaves every field of the stored record other than
    [updated_at] identical. *)
Theorem update_character_empty_body :
  forall w i r,
    reachable w ->
    dict_get i (characters w) = Some r ->
    exists r',
      fst (update_character i empty_character_update w) = Ok r'
      /\ dict_get i (characters (snd (update_character i empty_character_update w)))
         = Some r'
      /\ CharacterRead.id r' = CharacterRead.id r
      /\ CharacterRead.name r' = CharacterRead.name r
      /\ CharacterRead.role r' = CharacterRead.role r
      /\ CharacterRead.alias r' = CharacterRead.alias r
      /\ CharacterRead.gender r' = CharacterRead.gender r
      /\ CharacterRead.ability r' = CharacterRead.ability r
      /\ CharacterRead.created_at r' = CharacterRead.created_at r.
Proof.
  intros w i r Hreach Hget. exists r.
  rewrite (update_character_empty_noop w i r Hreach Hget).
  repeat split; try reflexivity. exact Hget.
Qed.

Lemma update_character_empty_body_witness :
  reachable eren_world
  /\ dict_get 199%N (characters eren_world) = Some eren_stored
  /\ exists r',
       fst (update_character 199%N empty_character_update eren_world) = Ok r'
       /\ dict_get 199%N
            (characters (snd (update_character 199%N empty_character_update eren_world)))
          = Some r'
       /\ CharacterRead.id r' = CharacterRead.id eren_stored
       /\ CharacterRead.name r' = CharacterRead.name eren_stored
       /\ CharacterRead.role r' = CharacterRead.role eren_stored
       /\ CharacterRead.alias r' = CharacterRead.alias eren_stored
       /\ CharacterRead.gender r' = CharacterRead.gender eren_stored
       /\ CharacterRead.ability r' = CharacterRead.ability eren_stored
       /\ CharacterRead.created_at r' = CharacterRead.created_at eren_stored.
Proof.
  split; [exact eren_world_reachable|]. split; [reflexivity|].
  exact (update_character_empty_body eren_world 199%N eren_stored
           eren_world_reachable eq_refl).
Defined.

(** ** Creating a character *)

(** C2, counterexample: a create request whose id is absent from the store
    but which leaves [gender] out passes the request model, and the
    operation raises [ValidationError] instead of inserting a record. *)
Lemma create_character_without_gender_rejected :
  dict_contains (CharacterBase.id sasuke_without_gender) (characters eren_world) = false
  /\ fst (create_character sasuke_without_gender eren_world) = Raise ValidationError
  /\ answer (POST_characters sasuke_without_gender) eren_world = 500%Z
  /\ characters (snd (create_character sasuke_without_gender eren_world))
     = characters eren_world.
Proof. repeat split; reflexivity. Qed.

(** In general: without [gender] nothing is inserted. *)
Lemma create_character_needs_gender w c :
  dict_contains (CharacterBase.id c) (characters w) = false ->
  supplies_gender c = false ->
  fst (create_character c w) = Raise ValidationError
  /\ characters (snd (create_character c w)) = characters w
  /\ animes (snd (create_character c w)) = animes w.
Proof.
  intros Habsent Hgender. rewrite create_character_run, Habsent, Hgender.
  repeat split.
Qed.

(** C2, as amended: for every create request whose id already exists in the
    character store, Create fails with Conflict (HTTP 400) and leaves the
    process state unchanged; for every create request whose id is absent and
    which supplies [gender], the operation succeeds (HTTP 201) and inserts
    the record, as the last entry of the character store. *)
Theorem create_character_conflict_or_insert :
  forall w c,
    (dict_contains (CharacterBase.id c) (characters w) = true ->
     create_character c w
     = (Raise (HTTPException 400 "Character with this ID already exists"), w)
     /\ answer (POST_characters c) w = 400%Z)
    /\ (dict_contains (CharacterBase.id c) (characters w) = false ->
        supplies_gender c = true ->
        exists r,
          fst (create_character c w) = Ok r
          /\ answer (POST_characters c) w = 201%Z
          /\ r = character_record c (clock (oracle w) 0) (clock (oracle w) 1)
          /\ characters (snd (create_character c w))
             = characters w ++ [(CharacterBase.id c, r)]
          /\ dict_get (CharacterBase.id c) (characters (snd (create_character c w)))
             = Some r
          /\ animes (snd (create_character c w)) = animes w).
Proof.
  intros w c. unfold answer. cbn [serve success_code].
  rewrite status_fmap, create_character_run. split.
  - intros ->. split; reflexivity.
  - intros Habsent ->. rewrite Habsent. cbv zeta.
    eexists. cbn [fst snd status characters animes with_characters with_oracle].
    split; [reflexivity|]. split; [reflexivity|]. split; [reflexivity|].
    apply dict_contains_false in Habsent.
    rewrite dict_get_set_eq, (dict_set_new _ _ _ Habsent).
    repeat split; reflexivity.
Qed.

Lemma create_character_conflict_or_insert_witness :
  (dict_contains (CharacterBase.id eren) (characters eren_world) = true
   /\ create_character eren eren_world
      = (Raise (HTTPException 400 "Character with this ID already exists"), eren_world))
  /\ (dict_contains (CharacterBase.id eren) (characters (boot ticking)) = false
      /\ supplies_gender eren = true
      /\ exists r,
           fst (create_character eren (boot ticking)) = Ok r
           /\ characters (snd (create_character eren (boot ticking)))
              = characters (boot ticking) ++ [(CharacterBase.id eren, r)]).
Proof.
  split.
  - split; [reflexivity|].
    exact (proj1 (proj1 (create_character_conflict_or_insert eren_world eren) eq_refl)).
  - split; [reflexivity|]. split; [reflexivity|].
    destruct (proj2 (create_character_conflict_or_insert (boot ticking) eren)
                eq_refl eq_refl) as (r & Hok & _ & _ & Hstore & _).
    exists r. split; assumption.
Defined.

(** ** Listing animes by gender *)

(** C3, counterexample: on an empty anime store a request that supplies
    [gender] returns the empty list; no attribute is looked up and nothing
    is raised. *)
Lemma list_animes_gender_on_empty_store :
  animes (boot ticking) = []
  /\ fst (serve (GET_animes (only_gender "Male")) (boot ticking)) = Ok (ManyAnimes [])
  /\ answer (GET_animes (only_gender "Male")) (boot ticking) = 200%Z.
Proof. repeat split; reflexivity. Qed.

(** C3, as amended: an Anime List request that supplies [gender] raises the
    attribute error for [addresses] exactly when at least one anime is left
    after the title, genre, seasons, rating, status, streaming and role
    filters; when none is left it returns the empty list.  The store is
    not modified either way. *)
Theorem list_animes_gender_filter :
  forall w title genre seasons rating status_ streaming role g,
    list_animes title genre seasons rating status_ streaming role (Some g) w
    = (match before_gender_filter title genre seasons rating status_ streaming role
               (animes w) with
       | [] => Ok []
       | _ :: _ => Raise (AttributeError "addresses")
       end, w).
Proof. intros. now rewrite list_animes_run. Qed.

(** With an anime in the store the same request does raise. *)
Example list_animes_gender_on_titan_world :
  fst (serve (GET_animes (only_gender "Male")) titan_world)
  = Raise (AttributeError "addresses").
Proof. reflexivity. Qed.

(** ** Listing characters *)

Lemma narrow_filter {A} (q : option string) (test : A -> string -> bool) (l : list A) :
  narrow q test l
  = filter (fun a => match q with Some x => test a x | None => true end) l.
Proof.
  destruct q as [x|]; simpl; [reflexivity|].
  induction l as [|a l IH]; simpl; congruence.
Qed.

Lemma filter_filter {A} (p q : A -> bool) (l : list A) :
  filter q (filter p l) = filter (fun a => p a && q a) l.
Proof.
  induction l as [|a l IH]; simpl; [reflexivity|].
  destruct (p a); simpl; [destruct (q a)|]; congruence.
Qed.

Lemma agrees_exact (q : option string) (attribute : option string) :
  agrees q attribute = true <-> (forall x, q = Some x -> attribute = Some x).
Proof.
  destruct q as [x|]; simpl.
  - destruct attribute as [y|]; simpl.
    + rewrite String.eqb_eq. split.
      * intros -> z [= <-]. reflexivity.
      * intros Hall. specialize (Hall x eq_refl). congruence.
    + split; [discriminate|]. intros Hall. specialize (Hall x eq_refl). discriminate.
  - split; [discriminate|reflexivity].
Qed.

(** C4: for every character store and every subset of the filters name,
    role, alias, gender, ability, Character List returns (never raising)
    exactly the records filed in the store that equal every supplied filter
    value, in store order (so the empty list when none does); in particular
    filtering by name and role is filtering by name and then filtering that
    subset by role. *)
Theorem list_characters_conjunction :
  forall w q,
    list_characters (q_name q) (q_role q) (q_alias q) (q_gender q) (q_ability q) w
    = (Ok (filter (matches q) (map snd (characters w))), w)
    /\ (forall a,
          In a (filter (matches q) (map snd (characters w)))
          <-> matches q a = true /\ exists k, In (k, a) (characters w))
    /\ (forall a,
          matches q a = true <->
          (forall x, q_name q = Some x -> CharacterRead.name a = x)
          /\ (forall x, q_role q = Some x -> CharacterRead.role a = x)
          /\ (forall x, q_alias q = Some x -> CharacterRead.alias a = Some x)
          /\ (forall x, q_gender q = Some x -> CharacterRead.gender a = Some x)
          /\ (forall x, q_ability q = Some x -> CharacterRead.ability a = x))
    /\ (forall x y,
          list_characters (Some x) (Some y) None None None w
          = (Ok (filter (fun a => String.eqb (CharacterRead.role a) y)
                   (filter (fun a => String.eqb (CharacterRead.name a) x)
                      (map snd (characters w)))), w)).
Proof.
  intros w q. split; [|split; [|split]].
  - rewrite list_characters_run. unfold dict_values. f_equal. f_equal.
    rewrite !narrow_filter, !filter_filter.
    apply filter_ext. intros a. unfold matches, agrees, optional_eqb.
    destruct (q_name q), (q_role q), (q_alias q), (q_gender q), (q_ability q);
      simpl; rewrite ?andb_true_r, ?andb_assoc; reflexivity.
  - intros a. rewrite filter_In, in_map_iff. split.
    + intros [([k a'] & Heq & Hin) Hmatch]. simpl in Heq. subst a'. eauto.
    + intros [Hmatch [k Hin]]. split; [|assumption]. now exists (k, a).
  - intros a. unfold matches. rewrite !andb_true_iff, !agrees_exact.
    split.
    + intros [[[[Hn Hr] Hal] Hg] Hab]. repeat split; try assumption.
      * intros x Hx. specialize (Hn x Hx). congruence.
      * intros x Hx. specialize (Hr x Hx). congruence.
      * intros x Hx. specialize (Hab x Hx). congruence.
    + intros (Hn & Hr & Hal & Hg & Hab). repeat split; try assumption.
      * intros x Hx. now rewrite (Hn x Hx).
      * intros x Hx. now rewrite (Hr x Hx).
      * intros x Hx. now rewrite (Hab x Hx).
  - intros x y. reflexivity.
Qed.

(** On the store that holds Eren and then Levi: name and role together pick
    Levi alone, and a gender both have returns both, in store order. *)
Lemma list_characters_conjunction_witness :
  map snd (characters eren_levi_world) = [eren_stored; levi_character_stored]
  /\ list_characters (Some "Levi Ackerman") (Some "Supporting") None None None
       eren_levi_world
     = (Ok [levi_character_stored], eren_levi_world)
  /\ list_characters None None None (Some "Male") None eren_levi_world
     = (Ok [eren_stored; levi_character_stored], eren_levi_world)
  /\ list_characters None (Some "Protagonist") None None None eren_levi_world
     = (Ok [eren_stored], eren_levi_world).
Proof.
  split; [reflexivity|]. split; [|split].
  - etransitivity.
    + exact (proj2 (proj2 (proj2 (list_characters_conjunction eren_levi_world
                                    no_filter)))
               "Levi Ackerman" "Supporting").
    + reflexivity.
  - etransitivity.
    + exact (proj1 (list_characters_conjunction eren_levi_world
                      (only_character_gender "Male"))).
    + reflexivity.
  - etransitivity.
    + exact (proj1 (list_characters_conjunction eren_levi_world
                      {| q_name := None; q_role := Some "Protagonist";
                         q_alias := None; q_gender := None; q_ability := None |})).
    + reflexivity.
Defined.

(** A filter that no record matches yields the empty list. *)
Example list_characters_no_match :
  fst (list_characters (Some "Mikasa Ackerman") None None None None eren_world) = Ok [].
Proof. reflexivity. Qed.

(** ** Creating an anime *)

(** C6, counterexample: a payload that [AnimeCreate] accepts, with an
    embedded character that leaves [gender] out, does not succeed with 201:
    the stored class rejects the dumped [None], the request answers 500 and
    no record is inserted. *)
Lemma create_anime_incomplete_character_rejected :
  map CharacterBase.gender (AnimeCreate.characters attack_on_titan_incomplete) = [None]
  /\ fst (create_anime attack_on_titan_incomplete (boot ticking)) = Raise ValidationError
  /\ answer (POST_animes attack_on_titan_incomplete) (boot ticking) = 500%Z
  /\ animes (snd (create_anime attack_on_titan_incomplete (boot ticking))) = [].
Proof. repeat split; reflexivity. Qed.

(** C6, as amended: Anime Create performs no duplicate-id check and never
    fails with Conflict or any other HTTP error, for any payload and any
    store; for every anime create payload in which each embedded character
    supplies [gender], and every prior store state, whether or not the
    minted identifier is already in the store, the operation succeeds with
    status 201 and files the new record under that identifier. *)
Theorem create_anime_never_conflicts :
  forall w a,
    (forall code detail, fst (create_anime a w) <> Raise (HTTPException code detail))
    /\ (valid_anime_payload a = true ->
        let r := anime_record a (entropy (oracle w) 0)
                   (clock (oracle w) 0) (clock (oracle w) 1) in
        fst (create_anime a w) = Ok r
        /\ answer (POST_animes a) w = 201%Z
        /\ animes (snd (create_anime a w)) = dict_set (AnimeRead.id r) r (animes w)
        /\ dict_get (AnimeRead.id r) (animes (snd (create_anime a w))) = Some r
        /\ characters (snd (create_anime a w)) = characters w).
Proof.
  intros w a. unfold answer. cbn [serve success_code].
  rewrite status_fmap, create_anime_run. cbv zeta. split.
  - intros code detail. destruct (valid_anime_payload a); discriminate.
  - intros ->. cbn [fst snd status animes characters with_animes with_oracle
                    anime_record AnimeRead.id].
    rewrite dict_get_set_eq. repeat split; reflexivity.
Qed.

(** The minted identifier may already be in use: the oracle below hands out
    900 twice, and the second create succeeds and replaces the first anime. *)
Lemma create_anime_never_conflicts_witness :
  valid_anime_payload attack_on_titan = true
  /\ dict_contains 900%N (animes titan_world) = true
  /\ fst (create_anime attack_on_titan
            (with_oracle titan_world {| entropy := fun _ => 900%N; clock := clock ticking |}))
     = Ok (anime_record attack_on_titan 900%N 1000%Z 1001%Z).
Proof.
  split; [reflexivity|]. split; [reflexivity|].
  exact (proj1 (proj2 (create_anime_never_conflicts
                         (with_oracle titan_world
                            {| entropy := fun _ => 900%N; clock := clock ticking |})
                         attack_on_titan) eq_refl)).
Defined.

(** ** Timestamps of a created character *)

(** C9, counterexample: the two timestamps come from two readings of the
    clock, and when the clock advances in between they differ. *)
Lemma create_character_timestamps_differ :
  fst (create_character eren (boot ticking)) = Ok eren_stored
  /\ CharacterRead.created_at eren_stored = 1000%Z
  /\ CharacterRead.updated_at eren_stored = 1001%Z
  /\ CharacterRead.created_at eren_stored <> CharacterRead.updated_at eren_stored.
Proof. repeat split; try reflexivity. discriminate. Qed.

(** C9, as amended: whenever Character Create succeeds, it stamps
    [created_at] with one reading of the clock and [updated_at] with the
    next reading, inserts the record, and returns the full record including
    those two timestamps; the returned record has [created_at] equal to
    [updated_at] exactly when the two readings coincide. *)
Theorem create_character_stamps :
  forall w c r,
    fst (create_character c w) = Ok r ->
    r = character_record c (clock (oracle w) 0) (clock (oracle w) 1)
    /\ CharacterRead.created_at r = clock (oracle w) 0
    /\ CharacterRead.updated_at r = clock (oracle w) 1
    /\ dict_get (CharacterBase.id c) (characters (snd (create_character c w))) = Some r
    /\ (CharacterRead.created_at r = CharacterRead.updated_at r
        <-> clock (oracle w) 0 = clock (oracle w) 1).
Proof.
  intros w c r. rewrite create_character_run.
  destruct (dict_contains _ _); [discriminate|].
  destruct (supplies_gender c); [|discriminate].
  cbv zeta. cbn [fst snd characters with_characters]. intros [= <-].
  rewrite dict_get_set_eq. repeat split; try reflexivity; simpl; tauto.
Qed.

Lemma create_character_stamps_witness :
  fst (create_character eren (boot ticking)) = Ok eren_stored
  /\ CharacterRead.created_at eren_stored = clock (oracle (boot ticking)) 0
  /\ CharacterRead.updated_at eren_stored = clock (oracle (boot ticking)) 1.
Proof.
  split; [reflexivity|].
  destruct (create_character_stamps (boot ticking) eren eren_stored eq_refl)
    as (_ & Hc & Hu & _).
  split; assumption.
Defined.

(** ** Replacing the characters of an anime *)

Lemma as_stored_fully_set m c : as_stored m (fully_set c) = c.
Proof. destruct c as [i n r al [g|] ab]; reflexivity. Qed.

Lemma stored_cast_fully_set cs : forall mint, stored_cast mint (map fully_set cs) = cs.
Proof.
  induction cs as [|c cs IH]; intros mint; simpl; [reflexivity|].
  now rewrite as_stored_fully_set, IH.
Qed.

(** C10, counterexample: a body that carries a new [characters] list next
    to [{"title": null}] is rejected with [ValidationError]; the anime keeps
    its previous characters, not the supplied list. *)
Lemma update_anime_cast_with_null_title_rejected :
  dict_get 900%N (animes titan_world) = Some attack_on_titan_stored
  /\ AnimeUpdate.characters cast_levi_title_null = Given (Some [fully_set levi])
  /\ fst (update_anime 900%N cast_levi_title_null titan_world) = Raise ValidationError
  /\ dict_get 900%N (animes (snd (update_anime 900%N cast_levi_title_null titan_world)))
     = Some attack_on_titan_stored
  /\ AnimeRead.characters attack_on_titan_stored = [eren]
  /\ [eren] <> [levi].
Proof. repeat split; try reflexivity. discriminate. Qed.

(** In general: a body with an explicit null for a field that [AnimeRead]
    annotates [str] or [List] changes neither store. *)
Lemma update_anime_null_rejected w i a u :
  dict_get i (animes w) = Some a ->
  anime_update_fits u = false ->
  fst (update_anime i u w) = Raise ValidationError
  /\ animes (snd (update_anime i u w)) = animes w
  /\ characters (snd (update_anime i u w)) = characters w.
Proof.
  intros Hget Hfits. rewrite update_anime_run, Hget, Hfits. repeat split.
Qed.

(** C10, as amended: for every anime id present in the anime store, an Anime
    Update whose body includes [characters] as a list, and carries no
    explicit null for title, genre, seasons, status or streaming, replaces
    the entire embedded list: the characters of the post-update record are
    the supplied ones, in order, each with the fields it supplies (an
    omitted id is minted anew, an omitted alias or gender is null), so they
    equal the supplied list exactly when every supplied character sets its
    fields; nothing of the previously stored list is merged or retained. *)
Theorem update_anime_replaces_characters :
  forall w i a u l,
    dict_get i (animes w) = Some a ->
    AnimeUpdate.characters u = Given (Some l) ->
    anime_update_fits u = true ->
    let cast := stored_cast (entropy (oracle w)) l in
    let w' := snd (update_anime i u w) in
    fst (update_anime i u w) = Ok (patched_anime u a cast)
    /\ dict_get i (animes w') = Some (patched_anime u a cast)
    /\ AnimeRead.characters (patched_anime u a cast) = cast
    /\ (forall cs, l = map fully_set cs -> cast = cs).
Proof.
  intros w i a u l Hget Hcast Hfits cast w'. subst w' cast.
  rewrite update_anime_run, Hget, Hfits. unfold cast_after_update.
  rewrite Hcast. cbv zeta. cbn [fst snd animes with_animes].
  rewrite dict_get_set_eq. repeat split.
  intros cs ->. apply stored_cast_fully_set.
Qed.

Lemma update_anime_replaces_characters_witness :
  dict_get 900%N (animes titan_world) = Some attack_on_titan_stored
  /\ AnimeUpdate.characters cast_levi = Given (Some [fully_set levi])
  /\ anime_update_fits cast_levi = true
  /\ fst (update_anime 900%N cast_levi titan_world)
     = Ok (patched_anime cast_levi attack_on_titan_stored
             (stored_cast (entropy (oracle titan_world)) [fully_set levi]))
  /\ stored_cast (entropy (oracle titan_world)) [fully_set levi] = [levi].
Proof.
  pose proof (update_anime_replaces_characters titan_world 900%N
                attack_on_titan_stored cast_levi [fully_set levi]
                eq_refl eq_refl eq_refl) as (Hok & _ & _ & Hexact).
  split; [reflexivity|]. split; [reflexivity|]. split; [reflexivity|].
  split; [exact Hok|]. exact (Hexact [levi] eq_refl).
Defined.

(** ** Identifiers *)

Lemma characters_key_persists q w k r :
  dict_get k (characters w) = Some r ->
  exists r', dict_get k (characters (after q w)) = Some r'.
Proof.
  intros Hget. destruct q as [c|q|i|i u|a|q|i|i u]; stepped; eauto.
  - destruct (dict_contains _ _); [eauto|].
    destruct (supplies_gender c); [|eauto]. simpl.
    rewrite dict_get_set. destruct (key_eqb k _); eauto.
  - destruct (dict_get i (characters w)) as [r0|]; [|eauto].
    destruct (_ && _); [|eauto]. simpl.
    rewrite dict_get_set. destruct (key_eqb k i); eauto.
  - destruct (valid_anime_payload a); eauto.
  - destruct (dict_get i (animes w)) as [a|]; [|eauto].
    destruct (if anime_update_fits u then _ else _); eauto.
Qed.

Lemma animes_key_persists q w k a :
  dict_get k (animes w) = Some a ->
  exists a', dict_get k (animes (after q w)) = Some a'.
Proof.
  intros Hget. destruct q as [c|q|i|i u|p|q|i|i u]; stepped; eauto.
  - destruct (dict_contains _ _); [eauto|].
    destruct (supplies_gender c); eauto.
  - destruct (dict_get i (characters w)) as [r0|]; [|eauto].
    destruct (_ && _); eauto.
  - destruct (valid_anime_payload p); [|eauto]. simpl.
    rewrite dict_get_set. destruct (key_eqb k _); eauto.
  - destruct (dict_get i (animes w)) as [a0|]; [|eauto].
    destruct (if anime_update_fits u then _ else _); [|eauto]. simpl.
    rewrite dict_get_set. destruct (key_eqb k i); eauto.
Qed.

(** C8: in every store state reachable by a sequence of create, list, get
    and update requests, the keys of each store are pairwise distinct, each
    key maps to a record whose [id] equals that key, and whatever request
    comes next, every record present stays filed under its key with its
    [id] unchanged. *)
Theorem identifiers_unique_and_stable :
  forall w,
    reachable w ->
    NoDup (dict_keys (characters w))
    /\ NoDup (dict_keys (animes w))
    /\ (forall k r, dict_get k (characters w) = Some r -> CharacterRead.id r = k)
    /\ (forall k a, dict_get k (animes w) = Some a -> AnimeRead.id a = k)
    /\ (forall q k r,
          dict_get k (characters w) = Some r ->
          exists r', dict_get k (characters (after q w)) = Some r'
                     /\ CharacterRead.id r' = CharacterRead.id r)
    /\ (forall q k a,
          dict_get k (animes w) = Some a ->
          exists a', dict_get k (animes (after q w)) = Some a'
                     /\ AnimeRead.id a' = AnimeRead.id a).
Proof.
  intros w Hreach. apply reachable_invariant in Hreach.
  pose proof Hreach as [[Hc Ha] [_ [Hndc Hnda]]].
  repeat split; try assumption.
  - intros q k r Hget.
    destruct (characters_key_persists q w k r Hget) as [r' Hget'].
    exists r'. split; [assumption|].
    destruct (invariant_after q w Hreach) as [[Hc' _] _].
    rewrite (Hc' k r' Hget'). symmetry. now apply Hc.
  - intros q k a Hget.
    destruct (animes_key_persists q w k a Hget) as [a' Hget'].
    exists a'. split; [assumption|].
    destruct (invariant_after q w Hreach) as [[_ Ha'] _].
    rewrite (Ha' k a' Hget'). symmetry. now apply Ha.
Qed.

Lemma identifiers_unique_and_stable_witness :
  reachable eren_world
  /\ NoDup (dict_keys (characters eren_world))
  /\ (forall k r, dict_get k (characters eren_world) = Some r -> CharacterRead.id r = k)
  /\ exists r', dict_get 199%N (characters (after (PATCH_character 199%N role_rival)
                                              eren_world)) = Some r'
                /\ CharacterRead.id r' = CharacterRead.id eren_stored.
Proof.
  pose proof (identifiers_unique_and_stable eren_world eren_world_reachable)
    as (Hnd & _ & Hkey & _ & Hstable & _).
  split; [exact eren_world_reachable|]. split; [exact Hnd|]. split; [exact Hkey|].
  exact (Hstable (PATCH_character 199%N role_rival) 199%N eren_stored eq_refl).
Defined.

(** ** The characters embedded in an anime *)

Lemma character_request_keeps_animes q w :
  on_character_store q = true -> animes (after q w) = animes w.
Proof.
  destruct q as [c|q|i|i u|a|q|i|i u]; try discriminate; intros _; stepped;
    try reflexivity.
  - destruct (dict_contains _ _); [reflexivity|]. now destruct (supplies_gender c).
  - destruct (dict_get i (characters w)) as [r|]; [|reflexivity].
    now destruct (_ && _).
Qed.

Lemma character_requests_keep_animes rs :
  forall w, forallb on_character_store rs = true -> animes (run rs w) = animes w.
Proof.
  induction rs as [|q rs IH]; intros w Hall; simpl in *; [reflexivity|].
  apply andb_true_iff in Hall as [Hq Hrs].
  rewrite (IH _ Hrs). now apply character_request_keeps_animes.
Qed.

(** One request that does not write the list kept under [i] leaves it be. *)
Lemma cast_kept_by_request q w i a :
  dict_get i (animes w) = Some a ->
  writes_cast i w q = false ->
  exists a', dict_get i (animes (after q w)) = Some a'
             /\ AnimeRead.characters a' = AnimeRead.characters a.
Proof.
  intros Hget Hq.
  destruct q as [c|q|j|j u|p|q|j|j u];
    try (rewrite character_request_keeps_animes by reflexivity; eauto);
    stepped; eauto.
  - (* POST /animes *)
    destruct (valid_anime_payload p); [|eauto]. simpl in *.
    rewrite dict_get_set_neq; [eauto|].
    intros Heq. rewrite Heq, N.eqb_refl in Hq. discriminate.
  - (* PATCH /animes/{id} *)
    simpl in Hq. destruct (N.eqb_spec j i) as [->|Hne].
    + rewrite Hget. unfold cast_after_update.
      destruct (AnimeUpdate.characters u) as [|v]; [|discriminate].
      destruct (anime_update_fits u); [|eauto].
      destruct (forallb supplies_gender (AnimeRead.characters a)); [|eauto].
      simpl. rewrite dict_get_set_eq. eauto.
    + destruct (dict_get j (animes w)) as [a0|]; [|eauto].
      destruct (if anime_update_fits u then _ else _); [|eauto]. simpl.
      rewrite dict_get_set_neq by assumption. eauto.
Qed.

Lemma cast_kept_by_requests rs :
  forall w i a,
    dict_get i (animes w) = Some a ->
    cast_untouched i rs w ->
    exists a', dict_get i (animes (run rs w)) = Some a'
               /\ AnimeRead.characters a' = AnimeRead.characters a.
Proof.
  induction rs as [|q rs IH]; intros w i a Hget Hrs; simpl in *; [eauto|].
  destruct Hrs as [Hq Hrs].
  destruct (cast_kept_by_request q w i a Hget Hq) as (a1 & Hget1 & Hsame1).
  destruct (IH _ i a1 Hget1 Hrs) as (a2 & Hget2 & Hsame2).
  exists a2. split; [assumption|congruence].
Qed.

(** C7: the [characters] list embedded in an anime is a value snapshot.
    Create stores the list of the payload as given.  For every anime present
    in the anime store, any sequence of requests against the character store
    leaves the anime store, and so that list, unchanged; and after any
    sequence of requests in which no anime update carrying [characters] is
    addressed to the anime (and the anime is not created anew under its
    identifier), reading the anime returns the list exactly as it was. *)
Theorem anime_characters_snapshot :
  forall w i a,
    dict_get i (animes w) = Some a ->
    (forall rs,
        forallb on_character_store rs = true -> animes (run rs w) = animes w)
    /\ (forall rs,
          cast_untouched i rs w ->
          exists a',
            fst (get_anime i (run rs w)) = Ok a'
            /\ AnimeRead.characters a' = AnimeRead.characters a)
    /\ (forall w0 payload r,
          fst (create_anime payload w0) = Ok r ->
          AnimeRead.characters r = AnimeCreate.characters payload
          /\ fst (get_anime (AnimeRead.id r) (snd (create_anime payload w0))) = Ok r).
Proof.
  intros w i a Hget. split; [|split].
  - intros rs. apply character_requests_keep_animes.
  - intros rs Hrs.
    destruct (cast_kept_by_requests rs w i a Hget Hrs) as (a' & Hget' & Hsame).
    exists a'. rewrite get_anime_run, Hget'. split; [reflexivity|assumption].
  - intros w0 payload r. rewrite create_anime_run. cbv zeta.
    destruct (valid_anime_payload payload); [|discriminate].
    cbn [fst snd]. intros [= <-]. split; [reflexivity|].
    rewrite get_anime_run.
    cbn [fst animes with_animes anime_record AnimeRead.id].
    now rewrite dict_get_set_eq.
Qed.

Lemma anime_characters_snapshot_witness :
  dict_get 900%N (animes titan_world) = Some attack_on_titan_stored
  /\ animes (run [POST_characters sasuke_without_gender;
                  PATCH_character 199%N role_rival;
                  POST_characters eren;
                  PATCH_character 199%N role_rival] titan_world)
     = animes titan_world
  /\ exists a',
       fst (get_anime 900%N
              (run [POST_characters eren;
                    PATCH_character 199%N role_rival;
                    POST_animes attack_on_titan;
                    PATCH_anime 900%N
                      (AnimeUpdate.mk Unset Unset Unset Unset
                         (Given (Some "Ongoing")) Unset Unset)]
                 titan_world)) = Ok a'
       /\ AnimeRead.characters a' = AnimeRead.characters attack_on_titan_stored.
Proof.
  pose proof (anime_characters_snapshot titan_world 900%N attack_on_titan_stored
                eq_refl) as (Hstore & Hread & _).
  split; [reflexivity|]. split.
  - apply Hstore. reflexivity.
  - apply Hread. repeat split.
Defined.

(** * Further properties of the handlers and the models *)

(** ** Round trips through [model_dump] *)

(** X1: a [CharacterRead] dumped with [model_dump] and passed back to the
    class is rebuilt field for field, without reading the clock or minting
    an identifier, provided it has a gender; one whose [gender] is [None] is
    rejected, because the dump hands the [None] to a field annotated [str]. *)
Theorem CharacterRead_round_trip :
  forall r o,
    CharacterRead.init (CharacterRead.model_dump r) o
    = (match CharacterRead.gender r with Some _ => Some r | None => None end, o).
Proof.
  intros [i n ro [al|] [g|] ab c up] o; reflexivity.
Qed.

Lemma patched_anime_nothing a :
  patched_anime (AnimeUpdate.mk Unset Unset Unset Unset Unset Unset Unset) a
    (AnimeRead.characters a) = a.
Proof. now destruct a. Qed.

(** X2: an [AnimeRead] dumped with [model_dump] and passed back to the class
    is rebuilt as it was, embedded characters included and without
    consulting the oracle, exactly when every embedded character has a
    gender; otherwise the class rejects its own dump. *)
Theorem AnimeRead_round_trip :
  forall a o,
    AnimeRead.init (AnimeRead.model_dump a) o
    = (if forallb supplies_gender (AnimeRead.characters a) then Some a else None, o).
Proof.
  intros a o.
  pose proof (AnimeRead_init_merged a
                (AnimeUpdate.mk Unset Unset Unset Unset Unset Unset Unset) o) as H.
  cbn [AnimeUpdate.model_dump_exclude_unset present app dict_update fold_left
       AnimeUpdate.title AnimeUpdate.genre AnimeUpdate.seasons AnimeUpdate.rating
       AnimeUpdate.status AnimeUpdate.streaming AnimeUpdate.characters] in H.
  rewrite H. unfold cast_after_update, oracle_after_update. simpl.
  destruct (forallb supplies_gender (AnimeRead.characters a)); [|reflexivity].
  simpl. now rewrite patched_anime_nothing.
Qed.

(** ** Unknown identifiers *)

(** X3: for an id that is not in the character store, both Get and Update
    (whatever its body) answer 404 with their own detail message, and leave
    the whole process, oracle included, as it was. *)
Theorem character_not_found :
  forall w i u,
    dict_get i (characters w) = None ->
    get_character i w = (Raise (HTTPException 404 "character not found"), w)
    /\ update_character i u w = (Raise (HTTPException 404 "Character not found"), w)
    /\ answer (GET_character i) w = 404%Z
    /\ answer (PATCH_character i u) w = 404%Z.
Proof.
  intros w i u Hnone. unfold answer. cbn [serve success_code].
  rewrite !status_fmap, get_character_run, update_character_run, Hnone.
  repeat split.
Qed.

Lemma character_not_found_witness :
  dict_get 200%N (characters eren_world) = None
  /\ get_character 200%N eren_world
     = (Raise (HTTPException 404 "character not found"), eren_world)
  /\ update_character 200%N role_rival eren_world
     = (Raise (HTTPException 404 "Character not found"), eren_world).
Proof.
  split; [reflexivity|].
  destruct (character_not_found eren_world 200%N role_rival eq_refl)
    as (Hget & Hupdate & _).
  split; assumption.
Defined.

(** X4: for an id that is not in the anime store, both Get and Update
    answer 404 "Anime not found" and leave the whole process as it was; in
    particular no identifier is minted for the characters of the body. *)
Theorem anime_not_found :
  forall w i u,
    dict_get i (animes w) = None ->
    get_anime i w = (Raise (HTTPException 404 "Anime not found"), w)
    /\ update_anime i u w = (Raise (HTTPException 404 "Anime not found"), w)
    /\ answer (GET_anime i) w = 404%Z
    /\ answer (PATCH_anime i u) w = 404%Z.
Proof.
  intros w i u Hnone. unfold answer. cbn [serve success_code].
  rewrite !status_fmap, get_anime_run, update_anime_run, Hnone.
  repeat split.
Qed.

Lemma anime_not_found_witness :
  dict_get 901%N (animes titan_world) = None
  /\ get_anime 901%N titan_world
     = (Raise (HTTPException 404 "Anime not found"), titan_world)
  /\ update_anime 901%N cast_levi titan_world
     = (Raise (HTTPException 404 "Anime not found"), titan_world).
Proof.
  split; [reflexivity|].
  destruct (anime_not_found titan_world 901%N cast_levi eq_refl)
    as (Hget & Hupdate & _).
  split; assumption.
Defined.

(** ** Reading back what was written *)

(** X5: once Character Create has returned a record, Get by the payload's id
    returns that same record with status 200, the unfiltered List is the
    previous list followed by the new record, and a second Create with the
    same payload answers 400 and changes nothing. *)
Theorem create_character_then_read :
  forall w c r,
    fst (create_character c w) = Ok r ->
    let w' := snd (create_character c w) in
    get_character (CharacterBase.id c) w' = (Ok r, w')
    /\ answer (GET_character (CharacterBase.id c)) w' = 200%Z
    /\ fst (list_characters None None None None None w')
       = Ok (dict_values (characters w) ++ [r])
    /\ create_character c w'
       = (Raise (HTTPException 400 "Character with this ID already exists"), w').
Proof.
  intros w c r Hok w'. subst w'. unfold answer. cbn [serve success_code].
  rewrite status_fmap, !get_character_run, list_characters_run.
  revert Hok. rewrite create_character_run.
  destruct (dict_contains _ _) eqn:Habsent; [discriminate|].
  destruct (supplies_gender c); [|discriminate].
  cbv zeta. cbn [fst snd characters with_characters with_oracle narrow].
  intros [= <-].
  (* the second create sees the key *)
  rewrite create_character_run.
  cbn [characters with_characters with_oracle].
  unfold dict_contains at 1. rewrite !dict_get_set_eq.
  apply dict_contains_false in Habsent.
  rewrite (dict_set_new _ _ _ Habsent).
  unfold dict_values. rewrite map_app. repeat split.
Qed.

Lemma create_character_then_read_witness :
  fst (create_character eren (boot ticking)) = Ok eren_stored
  /\ get_character 199%N (snd (create_character eren (boot ticking)))
     = (Ok eren_stored, snd (create_character eren (boot ticking)))
  /\ fst (list_characters None None None None None
            (snd (create_character eren (boot ticking))))
     = Ok (dict_values (characters (boot ticking)) ++ [eren_stored]).
Proof.
  split; [reflexivity|].
  destruct (create_character_then_read (boot ticking) eren eren_stored eq_refl)
    as (Hget & _ & Hlist & _).
  split; assumption.
Defined.

(** X6: once Character Update has returned a record, Get by that id returns
    the same record, and the keys of the character store, hence the
    positions of the records in List, are what they were before. *)
Theorem update_character_then_read :
  forall w i u r,
    fst (update_character i u w) = Ok r ->
    let w' := snd (update_character i u w) in
    get_character i w' = (Ok r, w')
    /\ dict_keys (characters w') = dict_keys (characters w)
    /\ animes w' = animes w.
Proof.
  intros w i u r Hok w'. subst w'. rewrite get_character_run.
  revert Hok. rewrite update_character_run.
  destruct (dict_get i (characters w)) as [r0|] eqn:Hget; [|discriminate].
  destruct (_ && _); [|discriminate].
  cbn [fst snd characters animes with_characters]. intros [= <-].
  rewrite dict_get_set_eq. repeat split.
  eapply dict_keys_set_old. eassumption.
Qed.

Lemma update_character_then_read_witness :
  fst (update_character 199%N role_rival eren_world)
  = Ok (patched_character role_rival eren_stored)
  /\ get_character 199%N (snd (update_character 199%N role_rival eren_world))
     = (Ok (patched_character role_rival eren_stored),
        snd (update_character 199%N role_rival eren_world)).
Proof.
  split; [reflexivity|].
  exact (proj1 (update_character_then_read eren_world 199%N role_rival
                  (patched_character role_rival eren_stored) eq_refl)).
Defined.

(** X7: once Anime Create or Anime Update has returned a record, Get by the
    identifier it is filed under (the minted one, respectively the one of
    the path) returns that same record with status 200. *)
Theorem anime_write_then_read :
  forall w,
    (forall payload r,
        fst (create_anime payload w) = Ok r ->
        get_anime (AnimeRead.id r) (snd (create_anime payload w))
        = (Ok r, snd (create_anime payload w))
        /\ answer (GET_anime (AnimeRead.id r)) (snd (create_anime payload w)) = 200%Z)
    /\ (forall i u r,
          fst (update_anime i u w) = Ok r ->
          get_anime i (snd (update_anime i u w)) = (Ok r, snd (update_anime i u w))
          /\ answer (GET_anime i) (snd (update_anime i u w)) = 200%Z).
Proof.
  intros w. split.
  - intros payload r. unfold answer. cbn [serve success_code].
    rewrite status_fmap, !get_anime_run, create_anime_run. cbv zeta.
    destruct (valid_anime_payload payload); [|discriminate].
    cbn [fst snd animes with_animes]. intros [= <-].
    cbn [anime_record AnimeRead.id]. rewrite dict_get_set_eq. split; reflexivity.
  - intros i u r. unfold answer. cbn [serve success_code].
    rewrite status_fmap, !get_anime_run, update_anime_run.
    destruct (dict_get i (animes w)) as [a|]; [|discriminate]. cbv zeta.
    destruct (if anime_update_fits u then _ else _) as [cast|]; [|discriminate].
    cbn [fst snd animes with_animes]. intros [= <-].
    rewrite dict_get_set_eq. split; reflexivity.
Qed.

Lemma anime_write_then_read_witness :
  fst (create_anime attack_on_titan (boot ticking)) = Ok attack_on_titan_stored
  /\ get_anime 900%N (snd (create_anime attack_on_titan (boot ticking)))
     = (Ok attack_on_titan_stored, snd (create_anime attack_on_titan (boot ticking)))
  /\ get_anime 900%N (snd (update_anime 900%N status_ongoing titan_world))
     = (Ok (patched_anime status_ongoing attack_on_titan_stored [eren]),
        snd (update_anime 900%N status_ongoing titan_world)).
Proof.
  pose proof (anime_write_then_read (boot ticking)) as [Hcreate _].
  pose proof (anime_write_then_read titan_world) as [_ Hupdate].
  split; [reflexivity|]. split.
  - exact (proj1 (Hcreate attack_on_titan attack_on_titan_stored eq_refl)).
  - exact (proj1 (Hupdate 900%N status_ongoing
                    (patched_anime status_ongoing attack_on_titan_stored [eren])
                    eq_refl)).
Defined.

(** ** Listing animes *)

Lemma some_character_has_role_exact x p :
  some_character_has_role (Some x) p = true
  <-> exists char, In char (AnimeRead.characters p) /\ CharacterBase.role char = x.
Proof.
  unfold some_character_has_role. rewrite existsb_exists.
  split; intros (char & Hin & Hrole); exists char; split; try assumption.
  - now apply String.eqb_eq.
  - now apply String.eqb_eq.
Qed.

(** X8: an Anime List request without a [gender] filter never raises and
    leaves the process untouched; it returns, in store order, exactly the
    animes that equal every supplied scalar filter (title, genre, seasons,
    rating, status, streaming) and, when [role] is supplied, have at least
    one embedded character with exactly that role; an anime with no
    characters therefore never passes a [role] filter. *)
Theorem list_animes_conjunction :
  forall w q,
    q_cast_gender q = None ->
    serve (GET_animes q) w
    = (Ok (ManyAnimes (filter (anime_matches q) (dict_values (animes w)))), w)
    /\ answer (GET_animes q) w = 200%Z
    /\ (forall x p,
          q_cast_role q = Some x ->
          anime_matches q p = true ->
          exists char, In char (AnimeRead.characters p) /\ CharacterBase.role char = x)
    /\ (forall x p,
          q_cast_role q = Some x ->
          AnimeRead.characters p = [] -> anime_matches q p = false).
Proof.
  intros w q Hgender.
  assert (Hserve : serve (GET_animes q) w
    = (Ok (ManyAnimes (filter (anime_matches q) (dict_values (animes w)))), w)).
  { assert (Hfilter :
      before_gender_filter (q_title q) (q_genre q) (q_seasons q) (q_rating q)
        (q_status q) (q_streaming q) (q_cast_role q) (animes w)
      = filter (anime_matches q) (dict_values (animes w))).
    { unfold before_gender_filter.
      rewrite !narrow_filter, !filter_filter.
      apply filter_ext. intros p.
      unfold anime_matches, agrees, optional_eqb, some_character_has_role.
      destruct (q_title q), (q_genre q), (q_seasons q), (q_rating q), (q_status q),
        (q_streaming q), (q_cast_role q);
        simpl; rewrite ?andb_true_r, ?andb_assoc; reflexivity. }
    cbn [serve]. unfold fmap, bind, ret.
    rewrite list_animes_run, Hgender. cbv zeta. now rewrite Hfilter. }
  split; [exact Hserve|]. split; [unfold answer; now rewrite Hserve|]. split.
  - intros x p Hrole Hmatch. unfold anime_matches in Hmatch.
    apply andb_true_iff in Hmatch as [_ Hmatch]. rewrite Hrole in Hmatch.
    now apply some_character_has_role_exact.
  - intros x p Hrole Hempty. unfold anime_matches, some_character_has_role.
    rewrite Hrole, Hempty. simpl. apply andb_false_r.
Qed.

Lemma list_animes_conjunction_witness :
  q_cast_gender (by_role "Protagonist") = None
  /\ serve (GET_animes (by_role "Protagonist")) titan_world
     = (Ok (ManyAnimes (filter (anime_matches (by_role "Protagonist"))
                          (dict_values (animes titan_world)))), titan_world)
  /\ filter (anime_matches (by_role "Protagonist")) (dict_values (animes titan_world))
     = [attack_on_titan_stored]
  /\ filter (anime_matches (by_role "Rival")) (dict_values (animes titan_world)) = [].
Proof.
  split; [reflexivity|]. split.
  - exact (proj1 (list_animes_conjunction titan_world (by_role "Protagonist") eq_refl)).
  - split; reflexivity.
Defined.

(** ** Partial update of an anime *)



(** ** Embedded characters without a gender *)

(** X10: Anime Create and Anime Update treat an embedded character that
    omits [gender] differently.  Create dumps the payload in full, so the
    stored class is handed [gender=None] and the request fails with
    [ValidationError] (status 500) without touching either store, for every
    payload with such a character.  Update dumps the body with
    [exclude_unset], so the omitted field is defaulted: a body that replaces
    the list is accepted whatever the genders, and the character is stored
    with [gender] [None]. *)
Theorem embedded_gender_create_versus_update :
  forall w,
    (forall payload,
        valid_anime_payload payload = false ->
        fst (create_anime payload w) = Raise ValidationError
        /\ answer (POST_animes payload) w = 500%Z
        /\ animes (snd (create_anime payload w)) = animes w
        /\ characters (snd (create_anime payload w)) = characters w)
    /\ (forall i a u l,
          dict_get i (animes w) = Some a ->
          AnimeUpdate.characters u = Given (Some l) ->
          anime_update_fits u = true ->
          exists a',
            fst (update_anime i u w) = Ok a'
            /\ map CharacterBase.gender (AnimeRead.characters a')
               = map (fun b => overwrite_gender (CharacterBase.b_gender b) None) l).
Proof.
  intros w. split.
  - intros payload Hinvalid. unfold answer. cbn [serve success_code].
    rewrite status_fmap, create_anime_run, Hinvalid. repeat split.
  - intros i a u l Hget Hcast Hfits.
    rewrite update_anime_run, Hget, Hfits. unfold cast_after_update.
    rewrite Hcast. cbv zeta. eexists. split; [reflexivity|].
    cbn [patched_anime AnimeRead.characters].
    generalize (entropy (oracle w)). clear.
    induction l as [|b l IH]; intros mint; simpl; [reflexivity|].
    now rewrite IH.
Qed.

Lemma embedded_gender_create_versus_update_witness :
  (valid_anime_payload attack_on_titan_incomplete = false
   /\ fst (create_anime attack_on_titan_incomplete titan_world) = Raise ValidationError)
  /\ (dict_get 900%N (animes titan_world) = Some attack_on_titan_stored
      /\ AnimeUpdate.characters cast_without_gender = Given (Some [levi_without_gender])
      /\ anime_update_fits cast_without_gender = true
      /\ exists a',
           fst (update_anime 900%N cast_without_gender titan_world) = Ok a'
           /\ map CharacterBase.gender (AnimeRead.characters a') = [None]).
Proof.
  pose proof (embedded_gender_create_versus_update titan_world) as [Hcreate Hupdate].
  split.
  - split; [reflexivity|].
    exact (proj1 (Hcreate attack_on_titan_incomplete eq_refl)).
  - split; [reflexivity|]. split; [reflexivity|]. split; [reflexivity|].
    exact (Hupdate 900%N attack_on_titan_stored cast_without_gender
             [levi_without_gender] eq_refl eq_refl eq_refl).
Defined.

(** X11: an anime whose stored list holds a character without a gender can
    no longer be updated field by field: every Update whose body omits
    [characters] validates the stored list again, raises [ValidationError]
    (status 500) and leaves both stores as they were.  Such an anime is
    reachable, through an Update that replaced the list. *)
Theorem update_anime_blocked_by_incomplete_cast :
  forall w i a u,
    dict_get i (animes w) = Some a ->
    forallb supplies_gender (AnimeRead.characters a) = false ->
    AnimeUpdate.characters u = Unset ->
    fst (update_anime i u w) = Raise ValidationError
    /\ answer (PATCH_anime i u) w = 500%Z
    /\ animes (snd (update_anime i u w)) = animes w
    /\ characters (snd (update_anime i u w)) = characters w.
Proof.
  intros w i a u Hget Hcast Hunset. unfold answer. cbn [serve success_code].
  rewrite status_fmap, update_anime_run, Hget. unfold cast_after_update.
  rewrite Hunset, Hcast. cbv zeta.
  destruct (anime_update_fits u); repeat split.
Qed.

Lemma stuck_world_reachable : reachable stuck_world.
Proof.
  exists ticking, [POST_animes attack_on_titan; PATCH_anime 900%N cast_without_gender].
  reflexivity.
Qed.

Lemma update_anime_blocked_by_incomplete_cast_witness :
  reachable stuck_world
  /\ dict_get 900%N (animes stuck_world)
     = Some (patched_anime cast_without_gender attack_on_titan_stored
               [as_stored 0%N levi_without_gender])
  /\ fst (update_anime 900%N status_ongoing stuck_world) = Raise ValidationError
  /\ answer (PATCH_anime 900%N status_ongoing) stuck_world = 500%Z.
Proof.
  split; [exact stuck_world_reachable|]. split; [reflexivity|].
  destruct (update_anime_blocked_by_incomplete_cast stuck_world 900%N
              (patched_anime cast_without_gender attack_on_titan_stored
                 [as_stored 0%N levi_without_gender])
              status_ongoing eq_refl eq_refl eq_refl) as (Hraise & Hanswer & _).
  split; assumption.
Defined.

(** ** What a sequence of requests can do to the stores *)

Lemma dict_keys_set {V} (k : UUID) (v : V) (d : dict UUID V) :
  dict_keys (dict_set k v d)
  = dict_keys d ++ (if dict_contains k d then [] else [k]).
Proof.
  unfold dict_contains. destruct (dict_get k d) as [v'|] eqn:Hget.
  - rewrite app_nil_r. eapply dict_keys_set_old. eassumption.
  - rewrite (dict_set_new _ _ _ Hget). unfold dict_keys. now rewrite map_app.
Qed.

Lemma keys_grow_by_request q w :
  (exists added, dict_keys (characters (after q w))
                 = dict_keys (characters w) ++ added)
  /\ (exists added, dict_keys (animes (after q w)) = dict_keys (animes w) ++ added).
Proof.
  assert (Hsame : forall (l : list UUID), exists added, l = l ++ added)
    by (intros l; exists []; now rewrite app_nil_r).
  destruct q as [c|q|i|i u|a|q|i|i u]; stepped; try (split; apply Hsame).
  - destruct (dict_contains _ _); [split; apply Hsame|].
    destruct (supplies_gender c); [|split; apply Hsame].
    split; [|apply Hsame]. simpl. rewrite dict_keys_set. eauto.
  - destruct (dict_get i (characters w)) as [r|]; [|split; apply Hsame].
    destruct (_ && _); [|split; apply Hsame].
    split; [|apply Hsame]. simpl. rewrite dict_keys_set. eauto.
  - destruct (valid_anime_payload a); [|split; apply Hsame].
    split; [apply Hsame|]. simpl. rewrite dict_keys_set. eauto.
  - destruct (dict_get i (animes w)) as [a|]; [|split; apply Hsame].
    destruct (if anime_update_fits u then _ else _); [|split; apply Hsame].
    split; [apply Hsame|]. simpl. rewrite dict_keys_set. eauto.
Qed.

(** X12: the stores only grow at the end.  After any sequence of requests
    the keys of each store are the keys it had before, in the same order,
    followed by the keys added since: no request removes a record or moves
    one, so the order of List is the order of creation. *)
Theorem stores_append_only :
  forall rs w,
    (exists added, dict_keys (characters (run rs w))
                   = dict_keys (characters w) ++ added)
    /\ (exists added, dict_keys (animes (run rs w)) = dict_keys (animes w) ++ added).
Proof.
  induction rs as [|q rs IH]; intros w; simpl.
  - split; exists []; now rewrite app_nil_r.
  - destruct (IH (after q w)) as [[c1 Hc1] [a1 Ha1]].
    destruct (keys_grow_by_request q w) as [[c0 Hc0] [a0 Ha0]].
    split.
    + exists (c0 ++ c1). now rewrite Hc1, Hc0, app_assoc.
    + exists (a0 ++ a1). now rewrite Ha1, Ha0, app_assoc.
Qed.

Lemma after_minting_clock l : forall o, clock (after_minting o l) = clock o.
Proof.
  induction l as [|b l IH]; intros o; simpl; [reflexivity|].
  rewrite IH. now destruct (is_given (CharacterBase.b_id b)).
Qed.

(** X13: neither update handler ever reads the clock or adds or removes a
    record: whatever the id and the body, and whether the request succeeds
    or not, the clock is where it was and both stores have the same keys in
    the same order.  Hence no update can refresh a timestamp. *)
Theorem updates_keep_keys_and_clock :
  forall q w,
    is_update q = true ->
    dict_keys (characters (after q w)) = dict_keys (characters w)
    /\ dict_keys (animes (after q w)) = dict_keys (animes w)
    /\ clock (oracle (after q w)) = clock (oracle w).
Proof.
  intros q w Hq. destruct q as [c|q|i|i u|a|q|i|i u]; try discriminate; stepped.
  - destruct (dict_get i (characters w)) as [r|] eqn:Hget; [|repeat split].
    destruct (_ && _); [|repeat split]. simpl. repeat split.
    eapply dict_keys_set_old. eassumption.
  - destruct (dict_get i (animes w)) as [a|] eqn:Hget; [|repeat split].
    assert (Hclock : clock (oracle_after_update (oracle w) u) = clock (oracle w)).
    { unfold oracle_after_update.
      destruct (AnimeUpdate.characters u) as [|[l|]]; try reflexivity.
      apply after_minting_clock. }
    destruct (if anime_update_fits u then _ else _); simpl; repeat split;
      try assumption.
    eapply dict_keys_set_old. eassumption.
Qed.

Lemma updates_keep_keys_and_clock_witness :
  is_update (PATCH_anime 900%N cast_without_gender) = true
  /\ dict_keys (animes (after (PATCH_anime 900%N cast_without_gender) titan_world))
     = dict_keys (animes titan_world)
  /\ clock (oracle (after (PATCH_anime 900%N cast_without_gender) titan_world))
     = clock (oracle titan_world).
Proof.
  split; [reflexivity|].
  destruct (updates_keep_keys_and_clock (PATCH_anime 900%N cast_without_gender)
              titan_world eq_refl) as (_ & Hkeys & Hclock).
  split; assumption.
Defined.

Lemma dict_set_twice {K V} `{Hashable K} (k : K) (v1 v2 : V) (d : dict K V) :
  dict_set k v2 (dict_set k v1 d) = dict_set k v2 d.
Proof.
  induction d as [|[k' v'] d IH]; cbn [dict_set].
  - now rewrite key_eqb_refl.
  - destruct (key_eqb k k') eqn:Hk; cbn [dict_set]; rewrite Hk; [reflexivity|].
    now rewrite IH.
Qed.

Lemma patched_character_twice u r :
  patched_character u (patched_character u r) = patched_character u r.
Proof.
  destruct u as [[|[?|]] [|[?|]] [|?] [|?] [|[?|]]], r; reflexivity.
Qed.

(** X14: Character Update is idempotent: sending the same body to the same
    id a second time gives the same answer as the first time and leaves the
    process exactly as the first request left it, whether that request
    succeeded, was rejected or found no record. *)
Theorem update_character_idempotent :
  forall w i u,
    update_character i u (snd (update_character i u w))
    = (fst (update_character i u w), snd (update_character i u w)).
Proof.
  intros w i u. rewrite (update_character_run i u w).
  destruct (dict_get i (characters w)) as [r|] eqn:Hget.
  - destruct (character_update_fits u && gender_settled u r) eqn:Hlands.
    + cbn [fst snd]. rewrite update_character_run.
      cbn [characters with_characters]. rewrite dict_get_set_eq.
      assert (Hagain : character_update_fits u
                       && gender_settled u (patched_character u r) = true).
      { apply andb_true_iff in Hlands as [Hfits Hsettled]. rewrite Hfits.
        unfold gender_settled in *. destruct u as [un ur ual [|g] uab]; simpl in *;
          [assumption|reflexivity]. }
      rewrite Hagain, patched_character_twice.
      unfold with_characters. cbn [animes characters oracle].
      now rewrite dict_set_twice.
    + cbn [fst snd]. now rewrite update_character_run, Hget, Hlands.
  - cbn [fst snd]. now rewrite update_character_run, Hget.
Qed.

(** ** Independence of the stores, and requests that only read *)

Lemma anime_request_keeps_characters q w :
  on_anime_store q = true -> characters (after q w) = characters w.
Proof.
  destruct q as [c|q|i|i u|a|q|i|i u]; try discriminate; intros _; stepped;
    try reflexivity.
  - now destruct (valid_anime_payload a).
  - destruct (dict_get i (animes w)) as [a|]; [|reflexivity].
    now destruct (if anime_update_fits u then _ else _).
Qed.

(** X15: no sequence of requests against the anime store changes the
    character store: the characters embedded in a created or updated anime
    are neither looked up in it nor entered into it. *)
Theorem anime_requests_keep_characters :
  forall rs w,
    forallb on_anime_store rs = true -> characters (run rs w) = characters w.
Proof.
  induction rs as [|q rs IH]; intros w Hall; simpl in *; [reflexivity|].
  apply andb_true_iff in Hall as [Hq Hrs].
  rewrite (IH _ Hrs). now apply anime_request_keeps_characters.
Qed.

Lemma anime_requests_keep_characters_witness :
  forallb on_anime_store
    [POST_animes attack_on_titan; PATCH_anime 900%N cast_levi; GET_anime 900%N] = true
  /\ characters (run [POST_animes attack_on_titan; PATCH_anime 900%N cast_levi;
                      GET_anime 900%N] eren_world)
     = characters eren_world.
Proof.
  split; [reflexivity|].
  exact (anime_requests_keep_characters
           [POST_animes attack_on_titan; PATCH_anime 900%N cast_levi; GET_anime 900%N]
           eren_world eq_refl).
Defined.

Lemma read_changes_nothing q w : is_read q = true -> after q w = w.
Proof.
  destruct q as [c|q|i|i u|a|q|i|i u]; try discriminate; intros _; now stepped.
Qed.

(** X16: the four GET routes only read: after any sequence of List and Get
    requests, including Gets of unknown ids and Lists that raise on the
    [gender] filter, the process is exactly what it was. *)
Theorem reads_change_nothing :
  forall rs w, forallb is_read rs = true -> run rs w = w.
Proof.
  induction rs as [|q rs IH]; intros w Hall; simpl in *; [reflexivity|].
  apply andb_true_iff in Hall as [Hq Hrs].
  rewrite (read_changes_nothing q w Hq). now apply IH.
Qed.

Lemma reads_change_nothing_witness :
  forallb is_read [GET_animes (only_gender "Male"); GET_character 200%N;
                   GET_characters no_filter; GET_anime 900%N] = true
  /\ run [GET_animes (only_gender "Male"); GET_character 200%N;
          GET_characters no_filter; GET_anime 900%N] titan_world
     = titan_world.
Proof.
  split; [reflexivity|].
  exact (reads_change_nothing
           [GET_animes (only_gender "Male"); GET_character 200%N;
            GET_characters no_filter; GET_anime 900%N] titan_world eq_refl).
Defined.

(** ** Composing updates *)

Lemma patched_character_then u1 u2 r :
  character_update_fits u1 = true ->
  character_update_fits u2 = true ->
  patched_character u2 (patched_character u1 r)
  = patched_character (then_update u1 u2) r.
Proof.
  destruct u1 as [[|[?|]] [|[?|]] [|?] [|?] [|[?|]]];
    destruct u2 as [[|[?|]] [|[?|]] [|?] [|?] [|[?|]]];
    destruct r; try discriminate; reflexivity.
Qed.

Lemma then_update_fits u1 u2 :
  character_update_fits u1 = true ->
  character_update_fits u2 = true ->
  character_update_fits (then_update u1 u2) = true.
Proof.
  destruct u1 as [[|[?|]] [|[?|]] [|?] [|?] [|[?|]]];
    destruct u2 as [[|[?|]] [|[?|]] [|?] [|?] [|[?|]]];
    try discriminate; reflexivity.
Qed.

(** X17: two Character Updates in a row amount to one.  For a character of
    a reachable store and two bodies without explicit null for name, role
    or ability, sending the first and then the second leaves the process as
    a single Update would whose body takes each field from the second body
    when that sets it and from the first otherwise, and the second answer is
    the answer of that single Update. *)
Theorem update_character_composes :
  forall w i r u1 u2,
    reachable w ->
    dict_get i (characters w) = Some r ->
    character_update_fits u1 = true ->
    character_update_fits u2 = true ->
    update_character i u2 (snd (update_character i u1 w))
    = update_character i (then_update u1 u2) w.
Proof.
  intros w i r u1 u2 Hreach Hget Hfits1 Hfits2.
  rewrite (update_character_run i u1 w), (update_character_run i (then_update u1 u2) w),
    Hget, Hfits1, (then_update_fits u1 u2 Hfits1 Hfits2),
    !(reachable_gender_settled w i r _ Hreach Hget).
  cbn [andb snd]. rewrite update_character_run.
  cbn [characters with_characters]. rewrite dict_get_set_eq, Hfits2.
  assert (Hsettled : gender_settled u2 (patched_character u1 r) = true).
  { pose proof (reachable_gender_settled w i r u1 Hreach Hget) as H1.
    unfold gender_settled in *. rewrite orb_true_iff. right.
    destruct (reachable_invariant w Hreach) as (_ & Hg & _).
    specialize (Hg i r Hget).
    pose proof (patched_character_gender u1 r Hg) as Hp.
    destruct (CharacterRead.gender (patched_character u1 r)); congruence. }
  rewrite Hsettled. cbn [andb].
  rewrite (patched_character_then u1 u2 r Hfits1 Hfits2).
  unfold with_characters. cbn [animes characters oracle].
  now rewrite dict_set_twice.
Qed.

Lemma update_character_composes_witness :
  reachable eren_world
  /\ dict_get 199%N (characters eren_world) = Some eren_stored
  /\ character_update_fits rival_with_alias = true
  /\ character_update_fits supporting_renamed = true
  /\ then_update rival_with_alias supporting_renamed
     = CharacterUpdate.mk (Given (Some "Sasuke Uchiha")) (Given (Some "Supporting"))
         (Given (Some "Avenger")) Unset Unset
  /\ update_character 199%N supporting_renamed
       (snd (update_character 199%N rival_with_alias eren_world))
     = update_character 199%N (then_update rival_with_alias supporting_renamed)
         eren_world
  /\ fst (update_character 199%N (then_update rival_with_alias supporting_renamed)
            eren_world)
     = Ok (CharacterRead.mk 199%N "Sasuke Uchiha" "Supporting" (Some "Avenger")
             (Some "Male") "Attack Titan Power" 1000%Z 1001%Z).
Proof.
  split; [exact eren_world_reachable|]. split; [reflexivity|].
  split; [reflexivity|]. split; [reflexivity|]. split; [reflexivity|].
  split; [|reflexivity].
  exact (update_character_composes eren_world 199%N eren_stored rival_with_alias
           supporting_renamed eren_world_reachable eq_refl eq_refl eq_refl).
Defined.

(** ** The lifetime of a character record *)

Lemma character_kept_by_request q w k r :
  dict_get k (characters w) = Some r ->
  exists r',
    dict_get k (characters (after q w)) = Some r'
    /\ CharacterRead.id r' = CharacterRead.id r
    /\ CharacterRead.created_at r' = CharacterRead.created_at r
    /\ CharacterRead.updated_at r' = CharacterRead.updated_at r.
Proof.
  intros Hget.
  destruct q as [c|q|i|i u|a|q|i|i u];
    try (rewrite anime_request_keeps_characters by reflexivity; eauto);
    stepped; eauto.
  - (* POST /characters: an id in use is refused, another id is another key *)
    destruct (dict_contains (CharacterBase.id c) (characters w)) eqn:Hc; [eauto|].
    destruct (supplies_gender c); [|eauto]. simpl.
    rewrite dict_get_set_neq; [eauto|].
    intros Heq. apply dict_contains_false in Hc. congruence.
  - (* PATCH /characters/{id} *)
    destruct (dict_get i (characters w)) as [r0|] eqn:Hi; [|eauto].
    destruct (_ && _); [|eauto]. simpl.
    destruct (N.eq_dec i k) as [->|Hne].
    + rewrite dict_get_set_eq. exists (patched_character u r0).
      assert (r0 = r) by congruence. subst r0. repeat split.
    + rewrite dict_get_set_neq by assumption. eauto.
Qed.

Lemma character_kept_by_requests rs :
  forall w k r,
    dict_get k (characters w) = Some r ->
    exists r',
      dict_get k (characters (run rs w)) = Some r'
      /\ CharacterRead.id r' = CharacterRead.id r
      /\ CharacterRead.created_at r' = CharacterRead.created_at r
      /\ CharacterRead.updated_at r' = CharacterRead.updated_at r.
Proof.
  induction rs as [|q rs IH]; intros w k r Hget; simpl; [eauto|].
  destruct (character_kept_by_request q w k r Hget) as (r1 & Hget1 & Hi1 & Hc1 & Hu1).
  destruct (IH (after q w) k r1 Hget1) as (r2 & Hget2 & Hi2 & Hc2 & Hu2).
  exists r2. repeat split; congruence.
Qed.

(** X18: a character record is stamped once.  Whatever requests follow, in
    any number, a character present in the store stays filed under its key
    with the [id], [created_at] and [updated_at] it has now: Create refuses
    its id, and Update rewrites neither. *)
Theorem character_stamps_are_final :
  forall rs w k r,
    dict_get k (characters w) = Some r ->
    exists r',
      dict_get k (characters (run rs w)) = Some r'
      /\ CharacterRead.id r' = CharacterRead.id r
      /\ CharacterRead.created_at r' = CharacterRead.created_at r
      /\ CharacterRead.updated_at r' = CharacterRead.updated_at r.
Proof. intros rs. apply character_kept_by_requests. Qed.

Lemma character_stamps_are_final_witness :
  dict_get 199%N (characters eren_world) = Some eren_stored
  /\ exists r',
       dict_get 199%N
         (characters (run [PATCH_character 199%N role_rival; POST_characters eren;
                           POST_animes attack_on_titan] eren_world)) = Some r'
       /\ CharacterRead.id r' = CharacterRead.id eren_stored
       /\ CharacterRead.created_at r' = CharacterRead.created_at eren_stored
       /\ CharacterRead.updated_at r' = CharacterRead.updated_at eren_stored.
Proof.
  split; [reflexivity|].
  exact (character_stamps_are_final
           [PATCH_character 199%N role_rival; POST_characters eren;
            POST_animes attack_on_titan] eren_world 199%N eren_stored eq_refl).
Defined.

(** X19: an identifier once in the character store stays taken: after any
    sequence of requests, Get by that id still answers 200 and Create with
    that id still answers 400, whatever the rest of the payload. *)
Theorem character_id_stays_taken :
  forall rs w c,
    dict_contains (CharacterBase.id c) (characters w) = true ->
    answer (GET_character (CharacterBase.id c)) (run rs w) = 200%Z
    /\ answer (POST_characters c) (run rs w) = 400%Z
    /\ characters (after (POST_characters c) (run rs w)) = characters (run rs w).
Proof.
  intros rs w c Hin. apply dict_contains_true in Hin as [r Hget].
  destruct (character_kept_by_requests rs w _ r Hget) as (r' & Hget' & _).
  unfold answer. cbn [serve success_code].
  rewrite !status_fmap, get_character_run, create_character_run, after_POST_characters.
  unfold dict_contains. rewrite Hget'. repeat split.
Qed.

Lemma character_id_stays_taken_witness :
  dict_contains (CharacterBase.id eren) (characters eren_world) = true
  /\ answer (GET_character (CharacterBase.id eren))
       (run [PATCH_character 199%N role_rival; POST_animes attack_on_titan] eren_world)
     = 200%Z
  /\ answer (POST_characters eren)
       (run [PATCH_character 199%N role_rival; POST_animes attack_on_titan] eren_world)
     = 400%Z.
Proof.
  split; [reflexivity|].
  destruct (character_id_stays_taken
              [PATCH_character 199%N role_rival; POST_animes attack_on_titan]
              eren_world eren eq_refl) as (Hget & Hpost & _).
  split; assumption.
Defined.
